(** * cgroupspy.interfaces: file-interface accessors and their codecs

    A shallow embedding of [cgroupspy/interfaces.py] (Python 3 semantics,
    the module imports [collections.Iterable], hence CPython 3.6 to 3.9)
    together with the properties its specification states about it.

    The development is organised as follows:
    - Python values, exceptions and the text primitives the module calls
      ([str.strip], [str.split], [str.join], [int], [str], [hex], ...);
    - a small free monad for the two owner primitives [get_property] and
      [set_property], with an interpreter that logs every call;
    - the descriptor protocol of [BaseFileInterface] and the codecs of
      its subclasses;
    - the theorems. *)

From Stdlib Require Import ZArith Ascii String Lia.
From stdpp Require Import gmap strings list.

Local Open Scope Z_scope.

(** ** Exceptions and results *)

(** The exceptions the module raises itself or lets escape from built-ins.
    Only [RuntimeError] carries its message, the one literal the source
    writes; [OSError] stands for a failure of the owner's I/O primitive. *)
Inductive exn : Type :=
| RuntimeError (msg : string)
| ValueError
| TypeError
| AttributeError
| KeyError
| IndexError
| OSError.

Inductive result (A : Type) : Type :=
| Ok (a : A)
| Raise (e : exn).
Arguments Ok {A} a.
Arguments Raise {A} e.

Definition rbind {A B} (r : result A) (f : A → result B) : result B :=
  match r with
  | Ok a => f a
  | Raise e => Raise e
  end.

#[global] Instance result_ret : MRet result := @Ok.
#[global] Instance result_bind : MBind result :=
  fun A B f r => rbind r f.

Fixpoint rmap_list {A B} (f : A → result B) (l : list A) : result (list B) :=
  match l with
  | [] => Ok []
  | a :: l' => b ← f a; bs ← rmap_list f l'; Ok (b :: bs)
  end.

(** ** Python values

    The values that flow through the accessors: the scalars, and the three
    collections the codecs produce or consume (ordered sequences of scalars,
    sets of integers, mappings from text to integers).  Text is a sequence of
    code points below 256; [bytes] is a sequence of octets. *)

Inductive scalar : Type :=
| SNone
| SBool (b : bool)
| SInt (n : Z)
| SStr (s : string)
| SBytes (s : string)
| SObj (mro : list string) (shown : string).
  (* an instance of a user class: the names of its class and of that
     class's bases, and what [str] returns on it *)

Inductive pyval : Type :=
| VScalar (x : scalar)
| VList (l : list scalar)
| VSet (s : gset Z)
| VDict (d : list (string * Z)).

Coercion VScalar : scalar >-> pyval.

Abbreviation VNone := (VScalar SNone).
Abbreviation VBool b := (VScalar (SBool b)).
Abbreviation VInt n := (VScalar (SInt n)).
Abbreviation VStr s := (VScalar (SStr s)).
Abbreviation VBytes s := (VScalar (SBytes s)).

(** ** Characters and text *)

Definition ord (c : ascii) : Z := Z.of_N (N_of_ascii c).
Definition chr (n : Z) : ascii := ascii_of_N (Z.to_N n).

(** [str.isspace] on one code point below 256. *)
Definition isspace (c : ascii) : bool :=
  let n := ord c in
  ((9 <=? n) && (n <=? 13)) || ((28 <=? n) && (n <=? 32))
  || (n =? 133) || (n =? 160).

(** C's [Py_ISSPACE], the white space of [bytes]. *)
Definition Py_ISSPACE (c : ascii) : bool :=
  let n := ord c in
  ((9 <=? n) && (n <=? 13)) || (n =? 32).

Definition eqc (a b : ascii) : bool := Ascii.eqb a b.

Fixpoint str_lstrip (sp : ascii → bool) (s : string) : string :=
  match s with
  | EmptyString => EmptyString
  | String c r => if sp c then str_lstrip sp r else s
  end.

Fixpoint str_rstrip (sp : ascii → bool) (s : string) : string :=
  match s with
  | EmptyString => EmptyString
  | String c r =>
      match str_rstrip sp r with
      | EmptyString => if sp c then EmptyString else String c EmptyString
      | r' => String c r'
      end
  end.

(** [s.strip()] *)
Definition str_strip (sp : ascii → bool) (s : string) : string :=
  str_rstrip sp (str_lstrip sp s).

(** [s.split(sep)] for a separator of one character. *)
Fixpoint str_split (sep : ascii) (s : string) : list string :=
  match s with
  | EmptyString => [EmptyString]
  | String c r =>
      if eqc c sep then EmptyString :: str_split sep r
      else match str_split sep r with
           | w :: ws => String c w :: ws
           | [] => [String c EmptyString]
           end
  end.

(** [s.split()]: the maximal runs of characters that are not white space. *)
Fixpoint str_split_whitespace (sp : ascii → bool) (s : string) : list string :=
  match s with
  | EmptyString => []
  | String c r =>
      if sp c then str_split_whitespace sp r
      else match r with
           | EmptyString => [String c EmptyString]
           | String c' _ =>
               if sp c' then String c EmptyString :: str_split_whitespace sp r
               else match str_split_whitespace sp r with
                    | w :: ws => String c w :: ws
                    | [] => [String c EmptyString]
                    end
           end
  end.

(** [sep.join(l)] *)
Fixpoint str_join (sep : string) (l : list string) : string :=
  match l with
  | [] => EmptyString
  | x :: rest =>
      match rest with
      | [] => x
      | _ :: _ => x +:+ sep +:+ str_join sep rest
      end
  end.

(** [c in s] for a needle of one character. *)
Fixpoint str_contains (c : ascii) (s : string) : bool :=
  match s with
  | EmptyString => false
  | String a r => eqc a c || str_contains c r
  end.

Definition str_len (s : string) : Z := Z.of_nat (String.length s).

(** Every character of [s] satisfies [P]. *)
Fixpoint str_forall (P : ascii → bool) (s : string) : bool :=
  match s with
  | EmptyString => true
  | String c r => P c && str_forall P r
  end.

(** ** Numerals *)

(** The digit of value [d] as Python prints it, in any base up to 16. *)
Definition digit_char (d : Z) : ascii :=
  if d <? 10 then chr (48 + d) else chr (87 + d).

(** The digits of [n >= 0] in [base], most significant first, pushed in
    front of [acc].  [fuel] bounds the number of digits. *)
Fixpoint digits_fuel (fuel : nat) (base n : Z) (acc : string) : string :=
  match fuel with
  | O => acc
  | S fuel' =>
      let acc' := String (digit_char (n mod base)) acc in
      if n <? base then acc' else digits_fuel fuel' base (n / base) acc'
  end.

Definition digits (base n : Z) : string :=
  digits_fuel (S (Z.to_nat (Z.log2 n))) base n EmptyString.

(** [str(n)] for an [int]. *)
Definition str_of_int (n : Z) : string :=
  if n <? 0 then String "-" (digits 10 (- n)) else digits 10 n.

(** [hex(n)] *)
Definition hex (n : Z) : string :=
  if n <? 0 then "-0x" +:+ digits 16 (- n) else "0x" +:+ digits 16 n.

Definition digit_value (c : ascii) : option Z :=
  let n := ord c in
  if (48 <=? n) && (n <=? 57) then Some (n - 48) else None.

Definition is_digit (c : ascii) : bool :=
  match digit_value c with
  | Some _ => true
  | None => false
  end.

(** The digit part of a decimal literal as [int] accepts it: at least one
    digit, single underscores allowed between digits only. *)
Fixpoint parse_digits (s : string) (acc : Z) (after_digit : bool) : option Z :=
  match s with
  | EmptyString => if after_digit then Some acc else None
  | String c r =>
      if eqc c "_" then
        if after_digit then parse_digits r acc false else None
      else
        match digit_value c with
        | Some d => parse_digits r (10 * acc + d) true
        | None => None
        end
  end.

(** [int(s)] in base 10: optional surrounding white space, an optional sign,
    then the digit part; [sp] is the white space of the argument's type. *)
Definition parse_int (sp : ascii → bool) (s : string) : option Z :=
  match str_strip sp s with
  | EmptyString => None
  | String c r =>
      if eqc c "-" then Z.opp <$> parse_digits r 0 false
      else if eqc c "+" then parse_digits r 0 false
      else parse_digits (String c r) 0 false
  end.

(** [s.encode()]: UTF-8, for code points below 256. *)
Fixpoint utf8 (s : string) : string :=
  match s with
  | EmptyString => EmptyString
  | String c r =>
      let n := ord c in
      if n <? 128 then String c (utf8 r)
      else String (chr (192 + n / 64)) (String (chr (128 + n mod 64)) (utf8 r))
  end.

Definition hex2 (n : Z) : string :=
  String (digit_char (n / 16)) (String (digit_char (n mod 16)) EmptyString).

Fixpoint bytes_escape (quote : ascii) (s : string) : string :=
  match s with
  | EmptyString => EmptyString
  | String c r =>
      let n := ord c in
      (if eqc c quote || eqc c "\" then String "\" (String c EmptyString)
       else if n =? 9 then "\t"
       else if n =? 10 then "\n"
       else if n =? 13 then "\r"
       else if (n <? 32) || (127 <=? n) then "\x" +:+ hex2 n
       else String c EmptyString) +:+ bytes_escape quote r
  end.

(** [repr(b)] for a [bytes] object, which is also its [str]. *)
Definition bytes_repr (b : string) : string :=
  let quote : ascii :=
    if str_contains "'" b && negb (str_contains (chr 34) b) then chr 34
    else "'"%char in
  String "b" (String quote (bytes_escape quote b +:+ String quote EmptyString)).

(** ** Built-in functions on values *)

(** [str(x)] *)
Definition py_str (x : scalar) : string :=
  match x with
  | SNone => "None"
  | SBool true => "True"
  | SBool false => "False"
  | SInt n => str_of_int n
  | SStr s => s
  | SBytes b => bytes_repr b
  | SObj _ shown => shown
  end.

(** [bool(x)] *)
Definition py_bool (v : pyval) : bool :=
  match v with
  | VScalar SNone => false
  | VScalar (SBool b) => b
  | VScalar (SInt n) => negb (n =? 0)
  | VScalar (SStr s) | VScalar (SBytes s) => negb (String.eqb s EmptyString)
  | VScalar (SObj _ _) => true
  | VList l => match l with [] => false | _ :: _ => true end
  | VSet s => negb (bool_decide (s = ∅))
  | VDict d => match d with [] => false | _ :: _ => true end
  end.

Definition int_of_bool (b : bool) : Z := if b then 1 else 0.

Definition or_ValueError {A} (o : option A) : result A :=
  match o with
  | Some a => Ok a
  | None => Raise ValueError
  end.

(** [int(x)] *)
Definition py_int (v : pyval) : result Z :=
  match v with
  | VScalar (SBool b) => Ok (int_of_bool b)
  | VScalar (SInt n) => Ok n
  | VScalar (SStr s) => or_ValueError (parse_int isspace s)
  | VScalar (SBytes b) => or_ValueError (parse_int Py_ISSPACE b)
  | _ => Raise TypeError
  end.

(** [len(x)] *)
Definition py_len (v : pyval) : result Z :=
  match v with
  | VScalar (SStr s) | VScalar (SBytes s) => Ok (str_len s)
  | VList l => Ok (Z.of_nat (length l))
  | VSet s => Ok (Z.of_nat (size s))
  | VDict d => Ok (Z.of_nat (length d))
  | VScalar _ => Raise TypeError
  end.

(** [isinstance(x, collections.Iterable)] *)
Definition is_Iterable (v : pyval) : bool :=
  match v with
  | VScalar (SStr _) | VScalar (SBytes _) | VList _ | VSet _ | VDict _ => true
  | VScalar _ => false
  end.

Definition is_bytes (v : pyval) : bool :=
  match v with
  | VScalar (SBytes _) => true
  | _ => false
  end.

(** The idiom
      [try: value = value.encode()  except AttributeError: pass]
    Only [str] has an [encode] method. *)
Definition try_encode (v : pyval) : pyval :=
  match v with
  | VScalar (SStr s) => VBytes (utf8 s)
  | _ => v
  end.

(** [value[i]] for an integer [i]. *)
Definition py_getitem (v : pyval) (i : Z) : result scalar :=
  match v with
  | VList l =>
      let n := Z.of_nat (length l) in
      let j := if i <? 0 then i + n else i in
      if (0 <=? j) && (j <? n) then
        match l !! Z.to_nat j with
        | Some x => Ok x
        | None => Raise IndexError
        end
      else Raise IndexError
  | VDict _ => Raise KeyError
  | _ => Raise TypeError
  end.

(** [range(a, b)] *)
Definition py_range (a b : Z) : list Z := seqZ a (b - a).

(** [res[key] = n] on a mapping that remembers insertion order. *)
Fixpoint dict_set (d : list (string * Z)) (key : string) (n : Z)
  : list (string * Z) :=
  match d with
  | [] => [(key, n)]
  | (k, v) :: d' =>
      if String.eqb k key then (k, n) :: d' else (k, v) :: dict_set d' key n
  end.

(** ** The owner's I/O primitives as effects *)

Inductive prog (A : Type) : Type :=
| Return (a : A)
| Throw (e : exn)
| GetProperty (filename : scalar) (k : pyval → prog A)
| SetProperty (filename : scalar) (value : pyval) (k : pyval → prog A).
Arguments Return {A} a.
Arguments Throw {A} e.
Arguments GetProperty {A} filename k.
Arguments SetProperty {A} filename value k.

Definition lift {A} (r : result A) : prog A :=
  match r with
  | Ok a => Return a
  | Raise e => Throw e
  end.

(** One entry of the log the interpreter keeps. *)
Inductive call : Type :=
| CallGet (filename : scalar)
| CallSet (filename : scalar) (value : pyval).

Definition is_CallSet (c : call) : bool :=
  match c with
  | CallSet _ _ => true
  | CallGet _ => false
  end.

(** An owner: any state with the two primitives.  Either may fail and
    either may change the state. *)
Record owner_ops (O : Type) : Type := {
  get_property : O → scalar → result pyval * O;
  set_property : O → scalar → pyval → result pyval * O
}.
Arguments get_property {O} _ _ _.
Arguments set_property {O} _ _ _ _.

Record outcome (A O : Type) : Type := {
  returned : result A;
  final : O;
  calls : list call
}.
Arguments returned {A O} _.
Arguments final {A O} _.
Arguments calls {A O} _.

Definition logged {A O} (c : call) (r : outcome A O) : outcome A O :=
  {| returned := returned r; final := final r; calls := c :: calls r |}.

Fixpoint run {A O} (ops : owner_ops O) (p : prog A) (o : O) : outcome A O :=
  match p with
  | Return a => {| returned := Ok a; final := o; calls := [] |}
  | Throw e => {| returned := Raise e; final := o; calls := [] |}
  | GetProperty f k =>
      logged (CallGet f)
        match get_property ops o f with
        | (Ok v, o') => run ops (k v) o'
        | (Raise e, o') => {| returned := Raise e; final := o'; calls := [] |}
        end
  | SetProperty f v k =>
      logged (CallSet f v)
        match set_property ops o f v with
        | (Ok r, o') => run ops (k r) o'
        | (Raise e, o') => {| returned := Raise e; final := o'; calls := [] |}
        end
  end.

(** A program that performs no I/O at all. *)
Definition pure_prog {A} (p : prog A) : bool :=
  match p with
  | Return _ | Throw _ => true
  | GetProperty _ _ | SetProperty _ _ _ => false
  end.

(** A program that never asks for [set_property]. *)
Inductive never_sets {A} : prog A → Prop :=
| ns_Return a : never_sets (Return a)
| ns_Throw e : never_sets (Throw e)
| ns_Get f k : (∀ v, never_sets (k v)) → never_sets (GetProperty f k).

(** ** Accessors

    An accessor is the instance state [BaseFileInterface.__init__] leaves
    behind together with the two hooks of its class.  The hooks receive the
    value only, never the owner. *)
Record accessor : Type := {
  self_filename : scalar;
  self_readonly : pyval;
  self_writeonly : pyval;
  self_sanitize_get : pyval → result pyval;
  self_sanitize_set : pyval → result pyval
}.

(** What a subclass fixes: the class attributes and the hooks. *)
Record interface_class : Type := {
  cls_readonly : bool;
  cls_writeonly : bool;
  cls_sanitize_get : pyval → result pyval;
  cls_sanitize_set : pyval → result pyval
}.

(** [a or b] *)
Definition py_or (a b : pyval) : pyval := if py_bool a then a else b.

Module BaseFileInterface.

Definition sanitize_get (value : pyval) : result pyval := Ok value.

Definition sanitize_set (value : pyval) : result pyval := Ok value.

Definition class : interface_class :=
  {| cls_readonly := false; cls_writeonly := false;
     cls_sanitize_get := sanitize_get; cls_sanitize_set := sanitize_set |}.

Definition __init__ (cls : interface_class)
    (filename : scalar) (readonly writeonly : pyval) : result accessor :=
  if py_bool readonly && py_bool writeonly then
    Raise (RuntimeError "This interface cannot be both readonly and writeonly")
  else
    Ok {| self_filename :=
            match filename with
            | SStr s => SBytes (utf8 s)
            | _ => filename
            end;
          self_readonly := py_or readonly (VBool (cls_readonly cls));
          self_writeonly := py_or writeonly (VBool (cls_writeonly cls));
          self_sanitize_get := cls_sanitize_get cls;
          self_sanitize_set := cls_sanitize_set cls |}.

Definition __get__ (self : accessor) : prog pyval :=
  if py_bool (self_writeonly self) then
    Throw (RuntimeError "This interface is writeonly")
  else
    GetProperty (self_filename self)
      (fun value => lift (self_sanitize_get self value)).

Definition __set__ (self : accessor) (value : pyval) : prog pyval :=
  if py_bool (self_readonly self) then
    Throw (RuntimeError "This interface is readonly")
  else
    match self_sanitize_set self value with
    | Raise e => Throw e
    | Ok VNone => Return VNone
    | Ok value => SetProperty (self_filename self) value Return
    end.

End BaseFileInterface.

Module StrFile.
Definition class : interface_class := BaseFileInterface.class.
End StrFile.

Module FlagFile.

Definition sanitize_get (value : pyval) : result pyval :=
  n ← py_int value; Ok (VBool (py_bool (VInt n))).

Definition sanitize_set (value : pyval) : result pyval :=
  Ok (VInt (int_of_bool (py_bool value))).

Definition class : interface_class :=
  {| cls_readonly := false; cls_writeonly := false;
     cls_sanitize_get := sanitize_get; cls_sanitize_set := sanitize_set |}.

End FlagFile.

Module BitFieldFile.

Definition sanitize_get (value : pyval) : result pyval :=
  v ← py_int value;
  let l := (str_len (hex v) - 2) * 4 in
  let l := l + (7 - (l - 1) mod 8) in
  Ok (VList ((fun i => SBool (py_bool (VInt (Z.land (Z.shiftr v i) 1))))
               <$> py_range 0 l)).

(** [sum(... for i in range(len(value)))], stopping at the first item
    that raises. *)
Fixpoint sum_bits (value : pyval) (idx : list Z) (acc : Z) : result Z :=
  match idx with
  | [] => Ok acc
  | i :: idx' =>
      x ← py_getitem value i;
      sum_bits value idx'
        (acc + Z.shiftl (int_of_bool (py_bool (VScalar x))) i)
  end.

Definition sanitize_set (value : pyval) : result pyval :=
  let value := try_encode value in
  if is_bytes value || negb (is_Iterable value) then
    n ← py_int value; Ok (VInt n)
  else
    len ← py_len value;
    n ← sum_bits value (py_range 0 len) 0; Ok (VInt n).

Definition class : interface_class :=
  {| cls_readonly := false; cls_writeonly := false;
     cls_sanitize_get := sanitize_get; cls_sanitize_set := sanitize_set |}.

End BitFieldFile.

Module IntegerFile.

Definition sanitize_get (value : pyval) : result pyval :=
  val ← py_int value;
  Ok (if val =? -1 then VNone else VInt val).

Definition sanitize_set (value : pyval) : result pyval :=
  let value := match value with VNone => VInt (-1) | _ => value end in
  n ← py_int value; Ok (VInt n).

Definition class : interface_class :=
  {| cls_readonly := false; cls_writeonly := false;
     cls_sanitize_get := sanitize_get; cls_sanitize_set := sanitize_set |}.

End IntegerFile.

(** [value.split(sep)] with a text separator: only [str] has a method that
    accepts it. *)
Definition split_text (sep : ascii) (value : pyval) : result (list string) :=
  match value with
  | VScalar (SStr s) => Ok (str_split sep s)
  | VScalar (SBytes _) => Raise TypeError
  | _ => Raise AttributeError
  end.

Module DictFile.

(** The loop body:  [key, val = el.split(); res[key] = int(val)] *)
Definition add_line (res : list (string * Z)) (el : string)
  : result (list (string * Z)) :=
  match str_split_whitespace isspace el with
  | [key; val] => n ← py_int (VStr val); Ok (dict_set res key n)
  | _ => Raise ValueError
  end.

Fixpoint loop (res : list (string * Z)) (lines : list string)
  : result (list (string * Z)) :=
  match lines with
  | [] => Ok res
  | el :: lines' => res' ← add_line res el; loop res' lines'
  end.

Definition sanitize_get (value : pyval) : result pyval :=
  lines ← split_text "010" value;
  res ← loop [] lines; Ok (VDict res).

Definition sanitize_set (value : pyval) : result pyval :=
  match value with
  | VDict d => Ok (VStr (str_join "," ((fun x => py_str (SStr x.1)) <$> d)))
  | _ => Raise ValueError
  end.

Definition class : interface_class :=
  {| cls_readonly := false; cls_writeonly := false;
     cls_sanitize_get := sanitize_get; cls_sanitize_set := sanitize_set |}.

End DictFile.

Module ListFile.

(** [value.split()] *)
Definition sanitize_get (value : pyval) : result pyval :=
  match value with
  | VScalar (SStr s) => Ok (VList (SStr <$> str_split_whitespace isspace s))
  | VScalar (SBytes b) =>
      Ok (VList (SBytes <$> str_split_whitespace Py_ISSPACE b))
  | _ => Raise AttributeError
  end.

Definition class : interface_class :=
  {| cls_readonly := true; cls_writeonly := false;
     cls_sanitize_get := sanitize_get;
     cls_sanitize_set := BaseFileInterface.sanitize_set |}.

End ListFile.

(** The shared body of the three [sanitize_set] that write one integer:
    [if value is None: value = -1;  return int(value)] *)
Definition int_or_minus_one (value : pyval) : result pyval :=
  let value := match value with VNone => VInt (-1) | _ => value end in
  n ← py_int value; Ok (VInt n).

Module IntegerListFile.

Definition sanitize_get (value : pyval) : result pyval :=
  value_list ← ListFile.sanitize_get value;
  match value_list with
  | VList l => ns ← rmap_list (fun x => py_int (VScalar x)) l;
               Ok (VList (SInt <$> ns))
  | _ => Raise TypeError
  end.

Definition sanitize_set (value : pyval) : result pyval :=
  int_or_minus_one value.

Definition class : interface_class :=
  {| cls_readonly := cls_readonly ListFile.class; cls_writeonly := false;
     cls_sanitize_get := sanitize_get; cls_sanitize_set := sanitize_set |}.

End IntegerListFile.

Module CommaDashSetFile.

(** What one group of the text adds to [elems]. *)
Definition group_elems (el_group : string) : result (list Z) :=
  if str_contains "-" el_group then
    match str_split "-" el_group with
    | [start; end_] =>
        a ← py_int (VStr start);
        b ← py_int (VStr end_);
        Ok (py_range a (b + 1))
    | _ => Raise ValueError
    end
  else if negb (String.eqb el_group EmptyString) then
    n ← py_int (VStr el_group); Ok [n]
  else Ok [].

Fixpoint loop (elems : list Z) (groups : list string) : result (list Z) :=
  match groups with
  | [] => Ok elems
  | el_group :: groups' =>
      new ← group_elems el_group; loop (elems ++ new) groups'
  end.

Definition sanitize_get (value : pyval) : result pyval :=
  match value with
  | VScalar (SStr s) =>
      elems ← loop [] (str_split "," (str_strip isspace s));
      Ok (VSet (list_to_set elems))
  | VScalar (SBytes _) => Raise TypeError
  | _ => Raise AttributeError
  end.

Section Encode.

(** The order in which Python iterates over a set is that of its hash
    table; the codec is defined for any such order. *)
Variable set_iter : gset Z → list Z.

(** [str(x) for x in value] *)
Definition strs_of (value : pyval) : list string :=
  match value with
  | VList l => py_str <$> l
  | VSet s => str_of_int <$> set_iter s
  | VDict d => (fun x => py_str (SStr x.1)) <$> d
  | VScalar (SStr s) =>
      (fun c => String c EmptyString) <$> list_ascii_of_string s
  | VScalar (SBytes b) =>
      (fun c => str_of_int (ord c)) <$> list_ascii_of_string b
  | VScalar _ => []
  end.

Definition sanitize_set (value : pyval) : result pyval :=
  len ← py_len value;
  if len =? 0 then Ok (VStr " ")
  else
    let value := try_encode value in
    let strs :=
      match value with
      | VScalar x =>
          if is_bytes value || negb (is_Iterable value) then [py_str x]
          else strs_of value
      | _ => strs_of value
      end in
    Ok (VStr (str_join "," strs)).

Definition class : interface_class :=
  {| cls_readonly := false; cls_writeonly := false;
     cls_sanitize_get := sanitize_get; cls_sanitize_set := sanitize_set |}.

End Encode.

End CommaDashSetFile.

Definition nonempty (s : string) : bool := negb (String.eqb s EmptyString).

Module MultiLineIntegerFile.

Definition sanitize_get (value : pyval) : result pyval :=
  match value with
  | VScalar (SStr s) =>
      int_list ← rmap_list (fun val => py_int (VStr val))
                   (filter (fun val => nonempty val = true)
                      (str_split "010" (str_strip isspace s)));
      Ok (VList (SInt <$> int_list))
  | VScalar (SBytes _) => Raise TypeError
  | _ => Raise AttributeError
  end.

Definition sanitize_set (value : pyval) : result pyval :=
  int_or_minus_one value.

Definition class : interface_class :=
  {| cls_readonly := false; cls_writeonly := false;
     cls_sanitize_get := sanitize_get; cls_sanitize_set := sanitize_set |}.

End MultiLineIntegerFile.

(** A class passed as an argument: its qualified name, the names of its
    bases, and its [from_string] class method.  The content types
    themselves live in [cgroupspy.contenttypes]. *)
Record pyclass : Type := {
  cls_name : string;
  cls_bases : list string;
  from_string : pyval → result scalar
}.

(** An argument that should be a class but need not be one. *)
Inductive class_arg : Type :=
| AClass (c : pyclass)
| AValue (v : pyval).

Definition BaseContentType : string := "cgroupspy.contenttypes.BaseContentType".

(** [issubclass(c, base)] *)
Definition py_issubclass (c : class_arg) (base : string) : result bool :=
  match c with
  | AClass c => Ok (bool_decide (base ∈ cls_name c :: cls_bases c))
  | AValue _ => Raise TypeError
  end.

(** [isinstance(value, c)] for a user class [c]. *)
Definition py_isinstance (value : pyval) (c : pyclass) : bool :=
  match value with
  | VScalar (SObj mro _) => bool_decide (cls_name c ∈ mro)
  | _ => false
  end.

Definition class_repr (c : pyclass) : string :=
  "<class '" +:+ cls_name c +:+ "'>".

Module TypedFile.

Definition sanitize_set (contenttype : pyclass) (value : pyval)
  : result pyval :=
  if py_isinstance value contenttype then Ok value
  else x ← from_string contenttype value; Ok (VScalar x).

Definition sanitize_get (contenttype : pyclass) (many : pyval)
    (value : pyval) : result pyval :=
  lines ← split_text "010" value;
  res ← rmap_list (fun val => from_string contenttype (VStr val))
          (filter (fun val => nonempty val = true) lines);
  if negb (py_bool many) then
    match res with
    | x :: _ => Ok (VScalar x)
    | [] => Ok VNone
    end
  else Ok (VList res).

Definition class (contenttype : pyclass) (many : pyval) : interface_class :=
  {| cls_readonly := false; cls_writeonly := false;
     cls_sanitize_get := sanitize_get contenttype many;
     cls_sanitize_set := sanitize_set contenttype |}.

Definition __init__ (filename : scalar) (contenttype : class_arg)
    (readonly writeonly many : pyval) : result accessor :=
  ok ← py_issubclass contenttype BaseContentType;
  match contenttype with
  | AClass c =>
      if negb ok then
        Raise (RuntimeError
                 ("Contenttype should be a class inheriting from BaseContentType, not "
                  +:+ class_repr c))
      else BaseFileInterface.__init__ (class c many) filename readonly writeonly
  | AValue _ => Raise TypeError
  end.

End TypedFile.

Module DictAndFlagFile.

Definition sanitize_set (value : pyval) : result pyval :=
  Ok (VInt (int_of_bool (py_bool value))).

(** The same text as [DictFile.sanitize_get]. *)
Definition sanitize_get (value : pyval) : result pyval :=
  lines ← split_text "010" value;
  res ← DictFile.loop [] lines; Ok (VDict res).

Definition class : interface_class :=
  {| cls_readonly := false; cls_writeonly := false;
     cls_sanitize_get := sanitize_get; cls_sanitize_set := sanitize_set |}.

End DictAndFlagFile.

(** ** A concrete owner *)

(** Modelled from the spec: the owning node is an external collaborator
    (section 6), [get_property(filename) -> text] returns the complete
    current contents of the file and fails when there is none,
    [set_property(filename, text)] replaces them.  Here the node is its
    files, and what is written is [str(value)]. *)
Module Node.

Definition path (filename : scalar) : option string :=
  match filename with
  | SStr s | SBytes s => Some s
  | _ => None
  end.

Definition get_property (files : gmap string string) (filename : scalar)
  : result pyval * gmap string string :=
  match path filename with
  | Some f =>
      match files !! f with
      | Some text => (Ok (VStr text), files)
      | None => (Raise OSError, files)
      end
  | None => (Raise TypeError, files)
  end.

Definition set_property (files : gmap string string) (filename : scalar)
    (value : pyval) : result pyval * gmap string string :=
  match path filename, value with
  | Some f, VScalar x => (Ok VNone, <[f := py_str x]> files)
  | _, _ => (Raise TypeError, files)
  end.

Definition ops : owner_ops (gmap string string) :=
  Build_owner_ops _ get_property set_property.

End Node.

(** ** The specification's vocabulary *)

(** Construction of an accessor of class [cls] with keyword arguments. *)
Definition accessor_of (cls : interface_class) (name : string)
    (readonly writeonly : pyval) : result accessor :=
  BaseFileInterface.__init__ cls (SStr name) readonly writeonly.

(** Three accessors as [__init__] leaves them: [StrFile(name,
    writeonly=True)], [ListFile(name)] and [StrFile(name)]. *)
Definition writeonly_file : accessor :=
  {| self_filename := SBytes "cgroup.event_control";
     self_readonly := VBool false; self_writeonly := VBool true;
     self_sanitize_get := BaseFileInterface.sanitize_get;
     self_sanitize_set := BaseFileInterface.sanitize_set |}.

Definition tasks_file : accessor :=
  {| self_filename := SBytes "tasks";
     self_readonly := VBool true; self_writeonly := VBool false;
     self_sanitize_get := ListFile.sanitize_get;
     self_sanitize_set := BaseFileInterface.sanitize_set |}.

Definition release_agent_file : accessor :=
  {| self_filename := SBytes "release_agent";
     self_readonly := VBool false; self_writeonly := VBool false;
     self_sanitize_get := BaseFileInterface.sanitize_get;
     self_sanitize_set := BaseFileInterface.sanitize_set |}.

(** A class that is no content type. *)
Definition not_a_content_type : pyclass :=
  {| cls_name := "int"; cls_bases := ["object"];
     from_string := fun _ => Raise AttributeError |}.

(** The line separator. *)
Definition LF : string := String "010" EmptyString.

(** [decode(encode(value))]: what a read gives back after a write when the
    owner hands the written value back unchanged. *)
Definition decode_encode (cls : interface_class) (value : pyval)
  : result pyval :=
  raw ← cls_sanitize_set cls value; cls_sanitize_get cls raw.

(** What a group of the compact range notation stands for, in the
    specification's words: a group with a dash is an inclusive range
    [start-end], a group without one is a single integer, an empty group
    is nothing. *)
Definition group_denotes (g : string) (x : Z) : Prop :=
  if str_contains "-" g then
    ∃ start end_ a b,
      g = start +:+ "-" +:+ end_ ∧
      py_int (VStr start) = Ok a ∧ py_int (VStr end_) = Ok b ∧ a ≤ x ≤ b
  else g ≠ EmptyString ∧ py_int (VStr g) = Ok x.

(** A group of the notation that is well formed. *)
Definition group_wf (g : string) : Prop :=
  g = EmptyString
  ∨ (str_contains "-" g = false ∧ ∃ n, py_int (VStr g) = Ok n)
  ∨ (∃ start end_ a b,
       g = start +:+ "-" +:+ end_ ∧
       str_contains "-" start = false ∧ str_contains "-" end_ = false ∧
       py_int (VStr start) = Ok a ∧ py_int (VStr end_) = Ok b).

(** The number of hexadecimal digits of [n >= 0]. *)
Definition hex_digit_count (n : Z) : Z :=
  if n =? 0 then 1 else Z.log2 n / 4 + 1.

(** The next multiple of 8 at or above [l]. *)
Definition round_up_8 (l : Z) : Z := 8 * ((l + 7) / 8).

(** The integer whose bit [i] is element [i] of [v]. *)
Fixpoint bits_value (v : list bool) : Z :=
  match v with
  | [] => 0
  | b :: v' => int_of_bool b + 2 * bits_value v'
  end.

(** ** The positional codec *)

(** [s.startswith(p)] *)
Fixpoint str_prefix (p s : string) : bool :=
  match p, s with
  | EmptyString, _ => true
  | String a p', String b s' => eqc a b && str_prefix p' s'
  | String _ _, EmptyString => false
  end.

(** [s.split(sep)] for a separator that is not empty, scanning from the
    left.  [skip] counts the characters of the separator just matched that
    are still to be passed over. *)
Fixpoint split_on (sep : string) (skip : nat) (s : string) : list string :=
  match s with
  | EmptyString => [EmptyString]
  | String c r =>
      match skip with
      | S k => split_on sep k r
      | O =>
          if str_prefix sep s then
            EmptyString :: split_on sep (String.length sep - 1) r
          else match split_on sep O r with
               | w :: ws => String c w :: ws
               | [] => [String c EmptyString]
               end
      end
  end.

(** [s.split(sep)]: the empty separator is refused. *)
Definition str_split_sep (sep s : string) : result (list string) :=
  if String.eqb sep EmptyString then Raise ValueError
  else Ok (split_on sep O s).

(** The result types a [SplitValueFile] is built with here: the built-in
    classes [int], [str] and [bool]. *)
Inductive builtin_type : Type :=
| type_int
| type_str
| type_bool.

(** [isinstance(x, t)] *)
Definition is_builtin (x : scalar) (t : builtin_type) : bool :=
  match t, x with
  | type_int, (SInt _ | SBool _) => true
  | type_str, SStr _ => true
  | type_bool, SBool _ => true
  | _, _ => false
  end.

(** [t(x)] *)
Definition builtin_call (t : builtin_type) (x : scalar) : result pyval :=
  match t with
  | type_int => n ← py_int (VScalar x); Ok (VInt n)
  | type_str => Ok (VStr (py_str x))
  | type_bool => Ok (VBool (py_bool (VScalar x)))
  end.

Module SplitValueFile.

Definition sanitize_get (position : Z) (restype : option builtin_type)
    (splitchar : string) (value : pyval) : result pyval :=
  match value with
  | VScalar (SStr s) =>
      parts ← str_split_sep splitchar (str_strip isspace s);
      res ← py_getitem (VList (SStr <$> parts)) position;
      match restype with
      | Some t =>
          if negb (is_builtin res t) then builtin_call t res
          else Ok (VScalar res)
      | None => Ok (VScalar res)
      end
  | VScalar (SBytes _) => Raise TypeError
  | _ => Raise AttributeError
  end.

Definition class (position : Z) (restype : option builtin_type)
    (splitchar : string) : interface_class :=
  {| cls_readonly := true; cls_writeonly := false;
     cls_sanitize_get := sanitize_get position restype splitchar;
     cls_sanitize_set := BaseFileInterface.sanitize_set |}.

Definition __init__ (filename : scalar) (position : Z)
    (restype : option builtin_type) (splitchar : string) : result accessor :=
  BaseFileInterface.__init__ (class position restype splitchar)
    filename VNone VNone.

End SplitValueFile.

(** ** Further vocabulary *)

(** The truth value of an element. *)
Definition truth (x : scalar) : bool := py_bool (VScalar x).

(** A token: a text that is not empty and holds no white space. *)
Definition is_token (s : string) : bool :=
  nonempty s && str_forall (fun c => negb (isspace c)) s.

(** A text of white space only. *)
Definition is_blank (s : string) : bool := str_forall isspace s.

(** A text that is empty or begins with white space. *)
Definition breaks (sp : ascii → bool) (s : string) : Prop :=
  match s with
  | EmptyString => True
  | String c _ => sp c = true
  end.

(** An item of the compact range notation: one integer, or a range. *)
Inductive range_item : Type :=
| Single (n : Z)
| Range (a b : Z).

Definition item_text (it : range_item) : string :=
  match it with
  | Single n => str_of_int n
  | Range a b => str_of_int a +:+ "-" +:+ str_of_int b
  end.

Definition item_covers (it : range_item) (x : Z) : Prop :=
  match it with
  | Single n => x = n
  | Range a b => a ≤ x ≤ b
  end.

Definition item_nonneg (it : range_item) : Prop :=
  match it with
  | Single n => 0 ≤ n
  | Range a b => 0 ≤ a ∧ 0 ≤ b
  end.

(** One line of a file of integers: a number, or nothing. *)
Definition row_line (row : option Z) : string :=
  match row with
  | Some n => str_of_int n
  | None => EmptyString
  end.

(** One line of a key-value file. *)
Definition dict_line (kv : string * Z) : string :=
  kv.1 +:+ " " +:+ str_of_int kv.2.

(** [d.get(key)] on an insertion-ordered mapping. *)
Fixpoint dict_get (d : list (string * Z)) (key : string) : option Z :=
  match d with
  | [] => None
  | (k, v) :: d' => if String.eqb k key then Some v else dict_get d' key
  end.

(** * Properties *)

(** ** The descriptor protocol *)

Section Protocol.

Import BaseFileInterface.

Context {O : Type} (ops : owner_ops O).

Lemma run_Throw (e : exn) (o : O) :
  run ops (Throw e : prog pyval) o
  = {| returned := Raise e; final := o; calls := [] |}.
Proof. reflexivity. Qed.

Lemma run_pure {A} (p : prog A) (o : O) :
  pure_prog p = true → calls (run ops p o) = [] ∧ final (run ops p o) = o.
Proof. destruct p; simpl; intros H; try discriminate H; auto. Qed.

Lemma run_lift {A} (r : result A) (o : O) :
  run ops (lift r) o = {| returned := r; final := o; calls := [] |}.
Proof. destruct r; reflexivity. Qed.

Lemma run_get (self : accessor) (o : O) :
  py_bool (self_writeonly self) = false →
  run ops (__get__ self) o
  = {| returned := value ← (get_property ops o (self_filename self)).1;
                   self_sanitize_get self value;
       final := (get_property ops o (self_filename self)).2;
       calls := [CallGet (self_filename self)] |}.
Proof.
  intros Hw. unfold __get__. rewrite Hw. simpl.
  destruct (get_property ops o (self_filename self)) as [[v|e] o']; simpl.
  - rewrite run_lift. reflexivity.
  - reflexivity.
Qed.

End Protocol.

Lemma never_sets_lift {A} (r : result A) : never_sets (lift r).
Proof. destruct r; constructor. Qed.

(** C1. Reading through a write-only accessor, or writing through a
    read-only one, raises the access error ([RuntimeError] with the
    message of the source) and calls neither [get_property] nor
    [set_property]: the program is the bare [Throw], and under every owner
    the call log is empty and the owner's state is the one it started in. *)
Theorem access_mode_enforced (self : accessor) :
  (py_bool (self_writeonly self) = true →
   BaseFileInterface.__get__ self
   = Throw (RuntimeError "This interface is writeonly")
   ∧ ∀ O (ops : owner_ops O) (o : O),
       run ops (BaseFileInterface.__get__ self) o
       = {| returned := Raise (RuntimeError "This interface is writeonly");
            final := o; calls := [] |})
  ∧ (py_bool (self_readonly self) = true →
     ∀ value,
       BaseFileInterface.__set__ self value
       = Throw (RuntimeError "This interface is readonly")
       ∧ ∀ O (ops : owner_ops O) (o : O),
           run ops (BaseFileInterface.__set__ self value) o
           = {| returned := Raise (RuntimeError "This interface is readonly");
                final := o; calls := [] |}).
Proof.
  split.
  - intros Hw.
    assert (E : BaseFileInterface.__get__ self
                = Throw (RuntimeError "This interface is writeonly"))
      by (unfold BaseFileInterface.__get__; rewrite Hw; reflexivity).
    split; [exact E|]. intros O ops o. rewrite E. reflexivity.
  - intros Hr value.
    assert (E : BaseFileInterface.__set__ self value
                = Throw (RuntimeError "This interface is readonly"))
      by (unfold BaseFileInterface.__set__; rewrite Hr; reflexivity).
    split; [exact E|]. intros O ops o. rewrite E. reflexivity.
Qed.

Lemma access_mode_enforced_witness :
  BaseFileInterface.__get__ writeonly_file
  = Throw (RuntimeError "This interface is writeonly")
  ∧ ∀ value, BaseFileInterface.__set__ tasks_file value
             = Throw (RuntimeError "This interface is readonly").
Proof.
  split.
  - exact (proj1 (proj1 (access_mode_enforced writeonly_file) eq_refl)).
  - intros value.
    exact (proj1 (proj2 (access_mode_enforced tasks_file) eq_refl value)).
Defined.

Lemma examples_constructed :
  accessor_of StrFile.class "cgroup.event_control" VNone (VBool true)
  = Ok writeonly_file
  ∧ accessor_of ListFile.class "tasks" VNone VNone = Ok tasks_file
  ∧ accessor_of StrFile.class "release_agent" VNone VNone
    = Ok release_agent_file.
Proof. repeat split; reflexivity. Qed.

(** C2. Construction with [readonly=True] and [writeonly=True] raises the
    configuration error ([RuntimeError]) instead of returning an accessor,
    for every class that passes the two arguments to
    [BaseFileInterface.__init__] and for [TypedFile] whatever its content
    type; and [TypedFile] raises it for every class that is not
    [BaseContentType] or one of its subclasses, whatever the other
    arguments. *)
Theorem contradictory_construction_fails :
  (∀ cls filename,
     BaseFileInterface.__init__ cls filename (VBool true) (VBool true)
     = Raise (RuntimeError
                "This interface cannot be both readonly and writeonly"))
  ∧ (∀ filename c many,
       ∃ msg, TypedFile.__init__ filename (AClass c)
                (VBool true) (VBool true) many
              = Raise (RuntimeError msg))
  ∧ (∀ filename c readonly writeonly many,
       BaseContentType ∉ cls_name c :: cls_bases c →
       TypedFile.__init__ filename (AClass c) readonly writeonly many
       = Raise (RuntimeError
                  ("Contenttype should be a class inheriting from BaseContentType, not "
                   +:+ class_repr c))).
Proof.
  split; [|split].
  - reflexivity.
  - intros filename c many. unfold TypedFile.__init__. simpl.
    case_bool_decide; simpl; eauto.
  - intros filename c ro wo many Hc. unfold TypedFile.__init__. simpl.
    rewrite bool_decide_eq_false_2 by exact Hc. reflexivity.
Qed.

Lemma contradictory_construction_fails_witness :
  TypedFile.__init__ (SStr "devices.list") (AClass not_a_content_type)
    VNone VNone (VBool true)
  = Raise (RuntimeError
             "Contenttype should be a class inheriting from BaseContentType, not <class 'int'>").
Proof.
  apply (proj2 (proj2 contradictory_construction_fails)).
  vm_compute. intros H. inversion H as [|? ? ? H1]; subst.
  inversion H1 as [|? ? ? H2]; inversion H2.
Defined.

(** C8. When the encode hook returns [None] the write does no I/O: the
    program [__set__] builds has no call in it, so under every owner the
    call log is empty and the owner's state unchanged. *)
Theorem absent_encoding_skips_write (self : accessor) (value : pyval) :
  self_sanitize_set self value = Ok VNone →
  pure_prog (BaseFileInterface.__set__ self value) = true
  ∧ ∀ O (ops : owner_ops O) (o : O),
      calls (run ops (BaseFileInterface.__set__ self value) o) = []
      ∧ final (run ops (BaseFileInterface.__set__ self value) o) = o.
Proof.
  intros Hset.
  assert (P : pure_prog (BaseFileInterface.__set__ self value) = true).
  { unfold BaseFileInterface.__set__.
    destruct (py_bool (self_readonly self)); [reflexivity|].
    rewrite Hset. reflexivity. }
  split; [exact P|]. intros O ops o. apply run_pure, P.
Qed.

Lemma absent_encoding_skips_write_witness :
  pure_prog (BaseFileInterface.__set__ release_agent_file VNone) = true
  ∧ run Node.ops (BaseFileInterface.__set__ release_agent_file VNone)
      {["release_agent" := "/sbin/agent"]}
    = {| returned := Ok VNone;
         final := {["release_agent" := "/sbin/agent"]};
         calls := [] |}.
Proof.
  split.
  - exact (proj1 (absent_encoding_skips_write release_agent_file VNone eq_refl)).
  - reflexivity.
Defined.

(** C9. A read never mutates the owner: the program [__get__] builds never
    asks for [set_property], whatever text the owner returns; under every
    owner the log holds no [set_property] call, and the owner's state
    after the read is the state [get_property] itself left (or the initial
    one when the accessor is write-only). *)
Theorem read_never_sets (self : accessor) :
  never_sets (BaseFileInterface.__get__ self)
  ∧ ∀ O (ops : owner_ops O) (o : O),
      let r := run ops (BaseFileInterface.__get__ self) o in
      Forall (fun c => is_CallSet c = false) (calls r)
      ∧ ((calls r = [] ∧ final r = o)
         ∨ (calls r = [CallGet (self_filename self)]
            ∧ final r = (get_property ops o (self_filename self)).2)).
Proof.
  split.
  - unfold BaseFileInterface.__get__.
    destruct (py_bool (self_writeonly self)); constructor.
    intros v. apply never_sets_lift.
  - intros O ops o. simpl.
    destruct (py_bool (self_writeonly self)) eqn:Hw.
    + unfold BaseFileInterface.__get__. rewrite Hw. simpl.
      split; [constructor | left; split; reflexivity].
    + rewrite (run_get ops self o Hw). simpl.
      split; [repeat constructor | right; split; reflexivity].
Qed.

(** ** Mappings *)

(** C10. The empty text does not decode to the empty mapping: split on the
    line separator it is one empty line, which splits into no token at all,
    and unpacking that into [key, val] raises [ValueError], in [DictFile]
    and in [DictAndFlagFile] alike. *)
Theorem empty_text_is_not_a_mapping :
  str_split "010" EmptyString = [EmptyString]
  ∧ str_split_whitespace isspace EmptyString = []
  ∧ DictFile.sanitize_get (VStr EmptyString) = Raise ValueError
  ∧ DictAndFlagFile.sanitize_get (VStr EmptyString) = Raise ValueError
  ∧ DictFile.sanitize_get (VStr EmptyString) ≠ Ok (VDict [])
  ∧ DictAndFlagFile.sanitize_get (VStr EmptyString) ≠ Ok (VDict []).
Proof. repeat split; try reflexivity; discriminate. Qed.

(** C7. [DictFile] decodes the two lines "a 1" and "b 2" to the mapping
    of a to 1 and b to 2; and it encodes any mapping as its keys joined
    with commas: the values do not reach the text, two mappings with the
    same keys encode alike. *)
Theorem dict_file_asymmetry :
  DictFile.sanitize_get (VStr ("a 1" +:+ LF +:+ "b 2"))
  = Ok (VDict [("a", 1); ("b", 2)])
  ∧ (∀ d, DictFile.sanitize_set (VDict d) = Ok (VStr (str_join "," d.*1)))
  ∧ (∀ d d', d.*1 = d'.*1 →
             DictFile.sanitize_set (VDict d) = DictFile.sanitize_set (VDict d')).
Proof.
  assert (E : ∀ d, DictFile.sanitize_set (VDict d)
                   = Ok (VStr (str_join "," d.*1))).
  { intros d. reflexivity. }
  split; [reflexivity|]. split; [exact E|].
  intros d d' Hk. rewrite !E, Hk. reflexivity.
Qed.

Lemma dict_file_asymmetry_witness :
  DictFile.sanitize_set (VDict [("a", 1); ("b", 2)])
  = DictFile.sanitize_set (VDict [("a", 30); ("b", 40)])
  ∧ DictFile.sanitize_set (VDict [("a", 1); ("b", 2)]) = Ok (VStr "a,b").
Proof.
  split.
  - exact (proj2 (proj2 dict_file_asymmetry)
             [("a", 1); ("b", 2)] [("a", 30); ("b", 40)] eq_refl).
  - exact (proj1 (proj2 dict_file_asymmetry) [("a", 1); ("b", 2)]).
Defined.

(** ** Text *)

Lemma eqc_true (a b : ascii) : eqc a b = true ↔ a = b.
Proof. apply Ascii.eqb_eq. Qed.

Lemma eqc_false (a b : ascii) : eqc a b = false ↔ a ≠ b.
Proof. apply Ascii.eqb_neq. Qed.

Lemma str_forall_app (P : ascii → bool) (s t : string) :
  str_forall P (s +:+ t) = str_forall P s && str_forall P t.
Proof.
  induction s as [|c s IH]; simpl; [reflexivity|].
  rewrite IH. apply andb_assoc.
Qed.

Lemma str_forall_impl (P Q : ascii → bool) (s : string) :
  (∀ c, P c = true → Q c = true) →
  str_forall P s = true → str_forall Q s = true.
Proof.
  intros HPQ. induction s as [|c s IH]; simpl; [reflexivity|].
  intros [Hc Hs]%andb_true_iff. rewrite (HPQ c Hc), (IH Hs). reflexivity.
Qed.

Lemma str_contains_forall (c : ascii) (P : ascii → bool) (s : string) :
  P c = false → str_forall P s = true → str_contains c s = false.
Proof.
  intros Hc. induction s as [|a s IH]; simpl; [reflexivity|].
  intros [Ha Hs]%andb_true_iff. rewrite (IH Hs), orb_false_r.
  apply eqc_false. intros ->. congruence.
Qed.

Lemma str_rstrip_id (sp : ascii → bool) (s : string) :
  str_forall (fun c => negb (sp c)) s = true → str_rstrip sp s = s.
Proof.
  induction s as [|c s IH]; simpl; [reflexivity|].
  intros [Hc Hs]%andb_true_iff. rewrite (IH Hs).
  apply negb_true_iff in Hc. rewrite Hc. destruct s; reflexivity.
Qed.

Lemma str_lstrip_id (sp : ascii → bool) (s : string) :
  str_forall (fun c => negb (sp c)) s = true → str_lstrip sp s = s.
Proof.
  destruct s as [|c s]; simpl; [reflexivity|].
  intros [Hc _]%andb_true_iff. apply negb_true_iff in Hc.
  rewrite Hc. reflexivity.
Qed.

Lemma str_strip_id (sp : ascii → bool) (s : string) :
  str_forall (fun c => negb (sp c)) s = true → str_strip sp s = s.
Proof.
  intros H. unfold str_strip. rewrite (str_lstrip_id sp s H).
  apply str_rstrip_id, H.
Qed.

(** ** Numerals *)

Lemma digit_char_cases (d : Z) :
  0 ≤ d < 10 →
  digit_value (digit_char d) = Some d
  ∧ eqc (digit_char d) "_" = false
  ∧ eqc (digit_char d) "-" = false
  ∧ eqc (digit_char d) "+" = false.
Proof.
  intros Hd.
  assert (d = 0 ∨ d = 1 ∨ d = 2 ∨ d = 3 ∨ d = 4 ∨ d = 5 ∨ d = 6 ∨ d = 7
          ∨ d = 8 ∨ d = 9) as H by lia.
  repeat destruct H as [->|H]; try subst d; repeat split; reflexivity.
Qed.

Lemma is_digit_not (c : ascii) (P : ascii → bool) :
  (∀ d, 0 ≤ d < 10 → P (digit_char d) = true) →
  is_digit c = true → P c = true.
Proof.
  intros HP. unfold is_digit, digit_value.
  destruct (_ && _) eqn:E; [|discriminate]. intros _.
  apply andb_true_iff in E as [E1 E2].
  assert (c = digit_char (ord c - 48)) as ->; [|apply HP; lia].
  unfold digit_char. replace (ord c - 48 <? 10) with true by lia.
  unfold chr, ord. replace (48 + (Z.of_N (N_of_ascii c) - 48)) with (Z.of_N (N_of_ascii c)) by lia.
  rewrite N2Z.id, ascii_N_embedding. reflexivity.
Qed.

Lemma digits_fuel_S (fuel : nat) (base n : Z) (acc : string) :
  digits_fuel (S fuel) base n acc
  = if n <? base then String (digit_char (n mod base)) acc
    else digits_fuel fuel base (n / base)
           (String (digit_char (n mod base)) acc).
Proof. reflexivity. Qed.

Lemma parse_digits_digit (d : Z) (r : string) (acc : Z) (flag : bool) :
  0 ≤ d < 10 →
  parse_digits (String (digit_char d) r) acc flag
  = parse_digits r (10 * acc + d) true.
Proof.
  intros Hd. destruct (digit_char_cases d Hd) as (Hv & Hu & _).
  cbn [parse_digits]. rewrite Hu, Hv. reflexivity.
Qed.

Lemma digits_fuel_parse (fuel : nat) :
  ∀ n acc flag,
    0 ≤ n < 10 ^ Z.of_nat (S fuel) →
    parse_digits (digits_fuel (S fuel) 10 n acc) 0 flag
    = parse_digits acc n true.
Proof.
  induction fuel as [|fuel IH]; intros n acc flag Hn;
    rewrite digits_fuel_S; destruct (n <? 10) eqn:Hlt.
  - rewrite Z.mod_small, parse_digits_digit by lia. f_equal; lia.
  - change (10 ^ Z.of_nat 1) with 10 in Hn. lia.
  - apply Z.ltb_lt in Hlt.
    rewrite Z.mod_small, parse_digits_digit by lia. f_equal; lia.
  - apply Z.ltb_ge in Hlt. rewrite IH.
    + rewrite parse_digits_digit by (apply Z.mod_pos_bound; lia).
      f_equal. rewrite (Z.div_mod n 10) at 3 by lia. lia.
    + split; [apply Z.div_pos; lia|].
      apply Z.div_lt_upper_bound; [lia|].
      rewrite Nat2Z.inj_succ, Z.pow_succ_r in Hn by lia. lia.
Qed.

Lemma fuel_enough (base n : Z) :
  2 ≤ base → 0 ≤ n → n < base ^ Z.of_nat (S (Z.to_nat (Z.log2 n))).
Proof.
  intros Hb Hn.
  rewrite Nat2Z.inj_succ, Z2Nat.id by apply Z.log2_nonneg.
  destruct (Z.eq_dec n 0) as [->|Hn0].
  - simpl. lia.
  - destruct (Z.log2_spec n ltac:(lia)) as [_ Hlt].
    eapply Z.lt_le_trans; [exact Hlt|].
    apply Z.pow_le_mono_l. lia.
Qed.

Lemma digits_parse (n : Z) (flag : bool) :
  0 ≤ n → parse_digits (digits 10 n) 0 flag = Some n.
Proof.
  intros Hn. unfold digits.
  rewrite digits_fuel_parse by (split; [lia | apply fuel_enough; lia]).
  reflexivity.
Qed.

Lemma digits_fuel_forall (P : ascii → bool) (base : Z) (fuel : nat) :
  (∀ d, 0 ≤ d < base → P (digit_char d) = true) → 0 < base →
  ∀ n acc, str_forall P acc = true →
           str_forall P (digits_fuel fuel base n acc) = true.
Proof.
  intros HP Hb. induction fuel as [|fuel IH]; intros n acc Hacc; [exact Hacc|].
  cbn [digits_fuel].
  assert (str_forall P (String (digit_char (n mod base)) acc) = true) as H.
  { simpl. rewrite Hacc, HP; [reflexivity | apply Z.mod_pos_bound; lia]. }
  destruct (n <? base); [exact H | apply IH, H].
Qed.

Lemma digits_forall (P : ascii → bool) (base n : Z) :
  (∀ d, 0 ≤ d < base → P (digit_char d) = true) → 0 < base →
  str_forall P (digits base n) = true.
Proof. intros HP Hb. apply digits_fuel_forall; auto. Qed.

Lemma digits_fuel_cons (base : Z) (fuel : nat) (n : Z) (acc : string) :
  ∃ c r, digits_fuel (S fuel) base n acc = String c r.
Proof.
  revert n acc. induction fuel as [|fuel IH]; intros n acc;
    rewrite digits_fuel_S; destruct (n <? base); eauto.
Qed.

Lemma decimal_digit_is_digit (d : Z) :
  0 ≤ d < 10 → is_digit (digit_char d) = true.
Proof.
  intros Hd. unfold is_digit.
  destruct (digit_char_cases d Hd) as (-> & _). reflexivity.
Qed.

Lemma is_digit_not_space (c : ascii) : is_digit c = true → negb (isspace c) = true.
Proof.
  apply (is_digit_not c (fun c => negb (isspace c))).
  intros d Hd.
  assert (d = 0 ∨ d = 1 ∨ d = 2 ∨ d = 3 ∨ d = 4 ∨ d = 5 ∨ d = 6 ∨ d = 7
          ∨ d = 8 ∨ d = 9) as H by lia.
  repeat destruct H as [->|H]; try subst d; reflexivity.
Qed.

Lemma is_digit_neq (c a : ascii) : is_digit a = false → is_digit c = true → eqc c a = false.
Proof. intros Ha Hc. apply eqc_false. intros ->. congruence. Qed.

(** [int(str(n)) == n] *)
Lemma parse_int_str_of_int (n : Z) : parse_int isspace (str_of_int n) = Some n.
Proof.
  unfold parse_int, str_of_int.
  destruct (n <? 0) eqn:Hn.
  - apply Z.ltb_lt in Hn.
    rewrite str_strip_id.
    + change (eqc "-" "-") with true. cbv iota.
      rewrite digits_parse by lia. simpl. f_equal; lia.
    + simpl. eapply str_forall_impl; [exact is_digit_not_space|].
      apply digits_forall; [exact decimal_digit_is_digit | lia].
  - apply Z.ltb_ge in Hn.
    assert (str_forall is_digit (digits 10 n) = true) as Hd
      by (apply digits_forall; [exact decimal_digit_is_digit | lia]).
    rewrite str_strip_id
      by (eapply str_forall_impl; [exact is_digit_not_space | exact Hd]).
    pose proof (digits_parse n false Hn) as Hp.
    destruct (digits 10 n) as [|c r] eqn:E; [discriminate Hp|].
    simpl in Hd. apply andb_true_iff in Hd as [Hc _].
    rewrite (is_digit_neq c "-"), (is_digit_neq c "+") by (reflexivity || exact Hc).
    exact Hp.
Qed.

(** ** Splitting and joining *)

Lemma str_split_no_sep (sep : ascii) (s : string) :
  str_contains sep s = false → str_split sep s = [s].
Proof.
  induction s as [|c s IH]; simpl; [reflexivity|].
  intros [Hc Hs]%orb_false_iff. rewrite Hc, (IH Hs). reflexivity.
Qed.

Lemma str_split_app (sep : ascii) (s t : string) :
  str_contains sep s = false →
  str_split sep (s +:+ String sep t) = s :: str_split sep t.
Proof.
  induction s as [|c s IH]; simpl.
  - intros _. unfold eqc. rewrite Ascii.eqb_refl. reflexivity.
  - intros [Hc Hs]%orb_false_iff. rewrite Hc, (IH Hs). reflexivity.
Qed.

Lemma str_join_cons (sep : ascii) (x y : string) (l : list string) :
  str_join (String sep EmptyString) (x :: y :: l)
  = x +:+ String sep (str_join (String sep EmptyString) (y :: l)).
Proof. reflexivity. Qed.

Lemma str_split_join (sep : ascii) (l : list string) :
  l ≠ [] → Forall (fun x => str_contains sep x = false) l →
  str_split sep (str_join (String sep EmptyString) l) = l.
Proof.
  induction l as [|x [|y l] IH]; intros Hne Hl; [done| |].
  - apply str_split_no_sep. by inversion Hl.
  - rewrite str_join_cons. inversion Hl as [|? ? Hx Hl']; subst.
    rewrite str_split_app by exact Hx. f_equal. apply IH; [done | exact Hl'].
Qed.

Lemma str_forall_join (P : ascii → bool) (sep : ascii) (l : list string) :
  P sep = true → Forall (fun x => str_forall P x = true) l →
  str_forall P (str_join (String sep EmptyString) l) = true.
Proof.
  intros Hsep. induction l as [|x [|y l] IH]; intros Hl; [reflexivity| |].
  - by inversion Hl.
  - rewrite str_join_cons, str_forall_app. inversion Hl as [|? ? Hx Hl']; subst.
    rewrite Hx. simpl. rewrite Hsep. apply IH, Hl'.
Qed.

(** ** The compact range codec *)

Lemma str_of_int_digits (n : Z) :
  0 ≤ n → str_of_int n ≠ EmptyString ∧ str_forall is_digit (str_of_int n) = true.
Proof.
  intros Hn. unfold str_of_int. replace (n <? 0) with false by lia. split.
  - unfold digits. destruct (digits_fuel_cons 10 (Z.to_nat (Z.log2 n)) n EmptyString)
      as (c & r & ->). discriminate.
  - apply digits_forall; [exact decimal_digit_is_digit | lia].
Qed.

Lemma group_elems_str_of_int (n : Z) :
  0 ≤ n → CommaDashSetFile.group_elems (str_of_int n) = Ok [n].
Proof.
  intros Hn. destruct (str_of_int_digits n Hn) as [Hne Hd].
  unfold CommaDashSetFile.group_elems.
  rewrite (str_contains_forall "-" is_digit) by (reflexivity || exact Hd).
  destruct (String.eqb_spec (str_of_int n) EmptyString) as [E|_]; [done|].
  simpl. rewrite parse_int_str_of_int. reflexivity.
Qed.

Lemma loop_str_of_int (l : list Z) :
  Forall (fun n => 0 ≤ n) l →
  ∀ elems, CommaDashSetFile.loop elems (str_of_int <$> l) = Ok (elems ++ l).
Proof.
  induction 1 as [|n l Hn Hl IH]; intros elems; simpl.
  - by rewrite app_nil_r.
  - rewrite group_elems_str_of_int by exact Hn. simpl.
    rewrite IH, <- app_assoc. reflexivity.
Qed.

Lemma sanitize_get_join (l : list Z) :
  l ≠ [] → Forall (fun n => 0 ≤ n) l →
  CommaDashSetFile.sanitize_get (VStr (str_join "," (str_of_int <$> l)))
  = Ok (VSet (list_to_set l)).
Proof.
  intros Hne Hl. unfold CommaDashSetFile.sanitize_get.
  assert (Forall (fun x => str_forall is_digit x = true) (str_of_int <$> l)) as Hd.
  { apply Forall_fmap. eapply Forall_impl; [exact Hl|].
    intros n Hn. apply (str_of_int_digits n Hn). }
  rewrite str_strip_id.
  - rewrite str_split_join.
    + rewrite loop_str_of_int by exact Hl. reflexivity.
    + destruct l; [done | discriminate].
    + eapply Forall_impl; [exact Hd|]. intros x Hx.
      apply (str_contains_forall "," is_digit); [reflexivity | exact Hx].
  - apply (str_forall_join (fun c => negb (isspace c)) ","); [reflexivity|].
    eapply Forall_impl; [exact Hd|]. intros x Hx.
    eapply str_forall_impl; [exact is_digit_not_space | exact Hx].
Qed.

Lemma bind_Ok {A B} (a : A) (f : A → result B) : Ok a ≫= f = f a.
Proof. reflexivity. Qed.

Section Sets.

Variable set_iter : gset Z → list Z.
Hypothesis set_iter_elements : ∀ s, set_iter s ≡ₚ elements s.

Lemma sanitize_set_set (s : gset Z) :
  CommaDashSetFile.sanitize_set set_iter (VSet s)
  = Ok (VStr (if Z.of_nat (size s) =? 0 then " "
              else str_join "," (str_of_int <$> set_iter s))).
Proof.
  unfold CommaDashSetFile.sanitize_set. simpl.
  destruct (Z.of_nat (size s) =? 0); reflexivity.
Qed.

Lemma set_iter_nil (s : gset Z) : set_iter s = [] → s = ∅.
Proof.
  intros Hnil. pose proof (set_iter_elements s) as H.
  rewrite Hnil in H. apply Permutation_nil in H.
  apply leibniz_equiv, elements_empty_inv. exact H.
Qed.

(** C4. A set of non-negative integers survives encoding and decoding,
    in whatever order the set is iterated: the decoded value is the same
    set, though the text is a flat comma list.  The empty set is written
    as one space, not as the empty text, and one space decodes to the
    empty set. *)
Theorem comma_dash_set_round_trip :
  (∀ s : gset Z,
     (∀ x, x ∈ s → 0 ≤ x) →
     decode_encode (CommaDashSetFile.class set_iter) (VSet s) = Ok (VSet s))
  ∧ CommaDashSetFile.sanitize_set set_iter (VSet ∅) = Ok (VStr " ")
  ∧ " " ≠ EmptyString
  ∧ CommaDashSetFile.sanitize_get (VStr " ") = Ok (VSet ∅).
Proof.
  split; [|repeat split; done].
  intros s Hs. unfold decode_encode.
  cbn [cls_sanitize_set cls_sanitize_get CommaDashSetFile.class].
  rewrite sanitize_set_set, bind_Ok.
  destruct (Z.eqb_spec (Z.of_nat (size s)) 0) as [E|E].
  - assert (s = ∅) as -> by (apply leibniz_equiv, size_empty_inv; lia).
    reflexivity.
  - rewrite sanitize_get_join.
    + do 2 f_equal. apply set_eq. intros x.
      rewrite elem_of_list_to_set, set_iter_elements. apply elem_of_elements.
    + intros Hnil. apply set_iter_nil in Hnil. subst s.
      apply E. reflexivity.
    + apply Forall_forall. intros x Hx. apply Hs.
      rewrite set_iter_elements in Hx. by apply elem_of_elements.
Qed.

End Sets.

Lemma comma_dash_set_round_trip_witness :
  decode_encode (CommaDashSetFile.class elements) (VSet {[0; 3; 12]})
  = Ok (VSet {[0; 3; 12]}).
Proof.
  apply (proj1 (comma_dash_set_round_trip elements
                  (fun s => Permutation_refl (elements s)))).
  intros x Hx. set_unfold. lia.
Defined.

(** ** The integer codec *)

Lemma integer_file_sentinel_not_preserved :
  decode_encode IntegerFile.class (VInt (-1)) = Ok VNone
  ∧ ¬ (∀ n, decode_encode IntegerFile.class (VInt n) = Ok (VInt n)).
Proof.
  split; [reflexivity|]. intros H. specialize (H (-1)). discriminate H.
Qed.

(** C3, amended. Encoding then decoding an integer gives the integer
    back, except for -1, which comes back as the absent value; the same
    holds when the encoded integer passes through its text [str(n)].  The
    absent value is encoded as the integer -1, whose text is "-1", the
    text "-1" decodes to the absent value, and so the absent value
    survives the round trip. *)
Theorem integer_file_round_trip :
  (∀ n, decode_encode IntegerFile.class (VInt n)
        = Ok (if n =? -1 then VNone else VInt n))
  ∧ (∀ n, IntegerFile.sanitize_set (VInt n) = Ok (VInt n)
          ∧ IntegerFile.sanitize_get (VStr (py_str (SInt n)))
            = Ok (if n =? -1 then VNone else VInt n))
  ∧ IntegerFile.sanitize_set VNone = Ok (VInt (-1))
  ∧ py_str (SInt (-1)) = "-1"
  ∧ IntegerFile.sanitize_get (VStr "-1") = Ok VNone
  ∧ decode_encode IntegerFile.class VNone = Ok VNone.
Proof.
  split; [|split; [|repeat split; reflexivity]].
  - intros n. reflexivity.
  - intros n. split; [reflexivity|].
    unfold IntegerFile.sanitize_get, py_int, py_str.
    rewrite parse_int_str_of_int. reflexivity.
Qed.

(** ** Decoding the compact range notation *)

Lemma str_split_cons (sep : ascii) (s : string) :
  ∃ w ws, str_split sep s = w :: ws.
Proof.
  destruct s as [|c s]; simpl; [eauto|].
  destruct (eqc c sep); [eauto|]. destruct (str_split sep s); eauto.
Qed.

Lemma str_split_one_inv (sep : ascii) (s x : string) :
  str_split sep s = [x] → s = x ∧ str_contains sep s = false.
Proof.
  revert x. induction s as [|c s IH]; simpl; intros x H.
  - by inversion H.
  - destruct (str_split_cons sep s) as (w & ws & E). rewrite E in H.
    destruct (eqc c sep) eqn:Hc; [discriminate H|].
    destruct ws; [|discriminate H]. injection H as <-.
    destruct (IH w E) as [-> Hs]. by rewrite Hs.
Qed.

Lemma str_split_two_inv (sep : ascii) (s a b : string) :
  str_split sep s = [a; b] →
  s = a +:+ String sep b
  ∧ str_contains sep a = false ∧ str_contains sep b = false.
Proof.
  revert a. induction s as [|c s IH]; simpl; intros a H; [discriminate H|].
  destruct (eqc c sep) eqn:Hc.
  - injection H as <- Hs. apply eqc_true in Hc as ->.
    destruct (str_split_one_inv sep s b Hs) as [-> Hb]. by rewrite Hb.
  - destruct (str_split_cons sep s) as (w & ws & E). rewrite E in H.
    injection H as <- ->.
    destruct (IH w E) as (-> & Hw & Hb).
    simpl. by rewrite Hc, Hw, Hb.
Qed.

Lemma str_contains_app (c : ascii) (s t : string) :
  str_contains c (s +:+ t) = str_contains c s || str_contains c t.
Proof.
  induction s as [|a s IH]; simpl; [reflexivity|].
  rewrite IH. apply orb_assoc.
Qed.

Lemma str_contains_sep (c : ascii) (s t : string) :
  str_contains c (s +:+ String c t) = true.
Proof.
  rewrite str_contains_app. simpl. unfold eqc. rewrite Ascii.eqb_refl.
  apply orb_true_r.
Qed.

(** A text with exactly one separator has one way to be cut at it. *)
Lemma str_split_two_unique (sep : ascii) (a' b' a b : string) :
  str_split sep (a' +:+ String sep b') = [a; b] → a' = a ∧ b' = b.
Proof.
  revert a. induction a' as [|c a' IH]; simpl; intros a H.
  - unfold eqc in H. rewrite Ascii.eqb_refl in H. injection H as <- Hs.
    by destruct (str_split_one_inv sep b' b Hs) as [-> _].
  - destruct (eqc c sep) eqn:Hc.
    + injection H as <- Hs.
      destruct (str_split_one_inv sep _ b Hs) as [_ Hn].
      rewrite str_contains_sep in Hn. discriminate Hn.
    + destruct (str_split_cons sep (a' +:+ String sep b')) as (w & ws & E).
      rewrite E in H. injection H as <- ->.
      by destruct (IH w E) as [-> ->].
Qed.

Lemma elem_of_py_range (a b x : Z) : x ∈ py_range a (b + 1) ↔ a ≤ x ≤ b.
Proof. unfold py_range. rewrite elem_of_seqZ. lia. Qed.

Lemma group_elems_denotes (g : string) (l : list Z) :
  CommaDashSetFile.group_elems g = Ok l →
  ∀ x, x ∈ l ↔ group_denotes g x.
Proof.
  unfold CommaDashSetFile.group_elems, group_denotes.
  destruct (str_contains "-" g) eqn:Hdash.
  - destruct (str_split "-" g) as [|start [|end_ [|? ?]]] eqn:E;
      try discriminate.
    destruct (py_int (VStr start)) as [a|] eqn:Ha; [|discriminate].
    destruct (py_int (VStr end_)) as [b|] eqn:Hb; [|discriminate].
    intros [= <-] x. rewrite elem_of_py_range.
    destruct (str_split_two_inv _ _ _ _ E) as (Hg & _ & _). split.
    + intros Hx. exists start, end_, a, b. by rewrite Hg.
    + intros (start' & end' & a' & b' & Hg' & Ha' & Hb' & Hx).
      rewrite Hg' in E. apply str_split_two_unique in E as [-> ->].
      rewrite Ha in Ha'. rewrite Hb in Hb'.
      injection Ha' as <-. injection Hb' as <-. exact Hx.
  - destruct (String.eqb_spec g EmptyString) as [->|Hne]; simpl.
    + intros [= <-] x. rewrite elem_of_nil. split; [done|]. by intros [? _].
    + destruct (or_ValueError (parse_int isspace g)) as [n|] eqn:Hn;
        [|discriminate].
      intros [= <-] x. rewrite list_elem_of_singleton. split.
      * intros ->. done.
      * intros [_ [= ->]]. done.
Qed.

Lemma loop_denotes (groups : list string) :
  ∀ elems l,
    CommaDashSetFile.loop elems groups = Ok l →
    ∀ x, x ∈ l ↔ x ∈ elems ∨ ∃ g, g ∈ groups ∧ group_denotes g x.
Proof.
  induction groups as [|g groups IH]; simpl; intros elems l H x.
  - injection H as <-. split; [auto|]. intros [Hx|(g & Hg & _)]; [done|].
    by apply elem_of_nil in Hg.
  - destruct (CommaDashSetFile.group_elems g) as [new|] eqn:Hg;
      [|discriminate H]. simpl in H.
    rewrite (IH _ _ H x), elem_of_app, (group_elems_denotes g new Hg x).
    split.
    + intros [[Hx|Hx]|(g' & Hg' & Hx)]; [by left | right | right].
      * exists g. split; [apply list_elem_of_here | exact Hx].
      * exists g'. split; [by apply list_elem_of_further | exact Hx].
    + intros [Hx|(g' & Hg' & Hx)]; [by left; left|].
      apply elem_of_cons in Hg' as [->|Hg']; [by left; right|].
      right. by exists g'.
Qed.

Lemma group_wf_elems (g : string) :
  group_wf g → ∃ l, CommaDashSetFile.group_elems g = Ok l.
Proof.
  unfold CommaDashSetFile.group_elems.
  intros [->|[[Hdash [n Hn]]|(start & end_ & a & b & -> & Hs & He & Ha & Hb)]].
  - by exists [].
  - rewrite Hdash. destruct (String.eqb g EmptyString); simpl; [by eexists|].
    simpl in Hn. rewrite Hn. by eexists.
  - change (start +:+ "-" +:+ end_) with (start +:+ String "-" end_).
    rewrite str_contains_sep, str_split_app, str_split_no_sep by done.
    rewrite Ha, Hb. by eexists.
Qed.

Lemma loop_wf (groups : list string) :
  Forall group_wf groups →
  ∀ elems, ∃ l, CommaDashSetFile.loop elems groups = Ok l.
Proof.
  induction 1 as [|g groups Hg _ IH]; intros elems; simpl; [by eexists|].
  destruct (group_wf_elems g Hg) as [new ->]. apply IH.
Qed.

(** C5. [CommaDashSetFile] decodes the (stripped) text group by group,
    the groups being the pieces between commas: the decoded set holds
    exactly the integers some group stands for, where a group with a dash
    stands for every integer from its start to its end, a group without a
    dash for its one integer, and the empty group for nothing.  A text
    whose groups are all well formed does decode.  The text
    "1-3,6,11-15" decodes to the set of 1, 2, 3, 6, 11, 12, 13, 14, 15. *)
Theorem comma_dash_set_decode :
  (∀ text s,
     CommaDashSetFile.sanitize_get (VStr text) = Ok (VSet s) →
     ∀ x, x ∈ s ↔ ∃ g, g ∈ str_split "," (str_strip isspace text)
                       ∧ group_denotes g x)
  ∧ (∀ text,
       Forall group_wf (str_split "," (str_strip isspace text)) →
       ∃ s, CommaDashSetFile.sanitize_get (VStr text) = Ok (VSet s))
  ∧ CommaDashSetFile.sanitize_get (VStr "1-3,6,11-15")
    = Ok (VSet {[1; 2; 3; 6; 11; 12; 13; 14; 15]}).
Proof.
  split; [|split].
  - intros text s. unfold CommaDashSetFile.sanitize_get.
    destruct (CommaDashSetFile.loop _ _) as [elems|] eqn:E; [|discriminate].
    intros [= <-] x. rewrite elem_of_list_to_set, (loop_denotes _ _ _ E x).
    rewrite elem_of_nil. tauto.
  - intros text Hwf. unfold CommaDashSetFile.sanitize_get.
    destruct (loop_wf _ Hwf []) as [l ->]. by eexists.
  - vm_compute. reflexivity.
Qed.

Lemma comma_dash_set_decode_witness :
  (∀ x, x ∈ ({[1; 2; 3; 6; 11; 12; 13; 14; 15]} : gset Z)
        ↔ ∃ g, g ∈ str_split "," (str_strip isspace "1-3,6,11-15")
               ∧ group_denotes g x)
  ∧ ∃ s, CommaDashSetFile.sanitize_get (VStr "1-3,6,11-15") = Ok (VSet s).
Proof.
  split.
  - pose proof (proj1 comma_dash_set_decode "1-3,6,11-15"
                  ({[1; 2; 3; 6; 11; 12; 13; 14; 15]} : gset Z)) as H.
    apply H. vm_compute. reflexivity.
  - refine (proj1 (proj2 comma_dash_set_decode) "1-3,6,11-15" _).
    change (Forall group_wf ["1-3"; "6"; "11-15"]).
    assert (group_wf "1-3") as H1.
    { right; right. exists "1", "3", 1, 3. (repeat split; reflexivity). }
    assert (group_wf "6") as H2.
    { right; left. (split; [reflexivity | exists 6; reflexivity]). }
    assert (group_wf "11-15") as H3.
    { right; right. exists "11", "15", 11, 15. (repeat split; reflexivity). }
    repeat apply Forall_cons_2; [exact H1 | exact H2 | exact H3 | apply Forall_nil_2].
Defined.

(** ** The bit-vector codec *)

Lemma str_len_cons (c : ascii) (s : string) : str_len (String c s) = 1 + str_len s.
Proof. unfold str_len. simpl String.length. lia. Qed.

Lemma str_len_nonneg (s : string) : 0 ≤ str_len s.
Proof. unfold str_len. lia. Qed.

Lemma hex_digit_count_small (n : Z) : 0 ≤ n < 16 → hex_digit_count n = 1.
Proof.
  intros Hn. unfold hex_digit_count.
  destruct (Z.eqb_spec n 0) as [|Hn0]; [reflexivity|].
  assert (Z.log2 n < 4) by (apply Z.log2_lt_pow2; simpl; lia).
  pose proof (Z.log2_nonneg n). rewrite Z.div_small by lia. reflexivity.
Qed.

Lemma hex_digit_count_step (n : Z) :
  16 ≤ n → hex_digit_count n = hex_digit_count (n / 16) + 1.
Proof.
  intros Hn. unfold hex_digit_count.
  assert (0 < n / 16) by (apply Z.div_str_pos; lia).
  replace (n =? 0) with false by lia. replace (n / 16 =? 0) with false by lia.
  change 16 with (2 ^ 4). rewrite <- Z.shiftr_div_pow2 by lia.
  rewrite Z.log2_shiftr by lia.
  assert (4 ≤ Z.log2 n) by (apply Z.log2_le_pow2; simpl; lia).
  rewrite Z.max_r by lia.
  generalize (Z.log2 n). intros m. Z.to_euclidean_division_equations. lia.
Qed.

(** [hex_digit_count] does count the digits [hex] prints. *)
Lemma digits_fuel_16_len (fuel : nat) :
  ∀ n acc,
    0 ≤ n < 16 ^ Z.of_nat (S fuel) →
    str_len (digits_fuel (S fuel) 16 n acc) = str_len acc + hex_digit_count n.
Proof.
  induction fuel as [|fuel IH]; intros n acc Hn;
    rewrite digits_fuel_S; destruct (n <? 16) eqn:Hlt.
  - rewrite str_len_cons, hex_digit_count_small by lia. lia.
  - change (16 ^ Z.of_nat 1) with 16 in Hn. lia.
  - rewrite str_len_cons, hex_digit_count_small by lia. lia.
  - apply Z.ltb_ge in Hlt. rewrite IH.
    + rewrite str_len_cons, (hex_digit_count_step n) by lia. lia.
    + split; [apply Z.div_pos; lia|].
      apply Z.div_lt_upper_bound; [lia|].
      rewrite Nat2Z.inj_succ, Z.pow_succ_r in Hn by lia. lia.
Qed.

Lemma hex_len (n : Z) : 0 ≤ n → str_len (hex n) - 2 = hex_digit_count n.
Proof.
  intros Hn. unfold hex. replace (n <? 0) with false by lia.
  change ("0x" +:+ digits 16 n) with (String "0" (String "x" (digits 16 n))).
  rewrite !str_len_cons. unfold digits.
  rewrite digits_fuel_16_len by (split; [lia | apply fuel_enough; lia]).
  change (str_len EmptyString) with 0. lia.
Qed.

Lemma hex_digit_count_bounds (n : Z) :
  0 < n → 16 ^ (hex_digit_count n - 1) ≤ n < 16 ^ hex_digit_count n.
Proof.
  intros Hn. unfold hex_digit_count. replace (n =? 0) with false by lia.
  pose proof (Z.log2_nonneg n) as H0.
  destruct (Z.log2_spec n Hn) as [Hlo Hhi].
  assert (0 ≤ Z.log2 n / 4) by (apply Z.div_pos; lia).
  change 16 with (2 ^ 4). rewrite <- !Z.pow_mul_r by lia.
  pose proof (Z.mul_div_le (Z.log2 n) 4 ltac:(lia)).
  pose proof (Z.mul_succ_div_gt (Z.log2 n) 4 ltac:(lia)).
  split.
  - eapply Z.le_trans; [|exact Hlo]. apply Z.pow_le_mono_r; lia.
  - eapply Z.lt_le_trans; [exact Hhi|]. apply Z.pow_le_mono_r; lia.
Qed.

Lemma round_up_8_code (l : Z) : l + (7 - (l - 1) mod 8) = round_up_8 l.
Proof.
  unfold round_up_8.
  pose proof (Z.div_mod (l - 1) 8 ltac:(lia)) as H1.
  pose proof (Z.mod_pos_bound (l - 1) 8 ltac:(lia)) as H2.
  replace (l + 7) with ((l - 1) mod 8 + ((l - 1) / 8 + 1) * 8) by lia.
  rewrite Z.div_add, Z.div_small by lia. lia.
Qed.

Lemma round_up_8_spec (l : Z) :
  l ≤ round_up_8 l < l + 8 ∧ round_up_8 l mod 8 = 0.
Proof.
  unfold round_up_8.
  pose proof (Z.div_mod (l + 7) 8 ltac:(lia)) as H1.
  pose proof (Z.mod_pos_bound (l + 7) 8 ltac:(lia)) as H2.
  split; [lia|]. rewrite Z.mul_comm. apply Z.mod_mul. lia.
Qed.

Lemma bit_test (v i : Z) :
  0 ≤ i → py_bool (VInt (Z.land (Z.shiftr v i) 1)) = Z.testbit v i.
Proof.
  intros Hi. simpl. change 1 with (Z.ones 1).
  rewrite Z.land_ones by lia. change (2 ^ 1) with 2.
  rewrite <- Z.bit0_mod, Z.shiftr_spec, Z.add_0_l by lia.
  destruct (Z.testbit v i); reflexivity.
Qed.

Lemma sanitize_get_bits (text : string) (n : Z) :
  py_int (VStr text) = Ok n → 0 ≤ n →
  BitFieldFile.sanitize_get (VStr text)
  = Ok (VList (SBool <$> (Z.testbit n
                            <$> seqZ 0 (round_up_8 (4 * hex_digit_count n))))).
Proof.
  intros Hint Hn. unfold BitFieldFile.sanitize_get.
  rewrite Hint, bind_Ok. cbv zeta.
  rewrite round_up_8_code, hex_len by exact Hn.
  rewrite (Z.mul_comm (hex_digit_count n) 4), <- list_fmap_compose.
  unfold py_range. rewrite Z.sub_0_r. do 2 f_equal.
  apply list_fmap_ext. intros i x Hx. apply lookup_seqZ in Hx as [-> _].
  simpl. f_equal. apply (bit_test n (0 + Z.of_nat i)). lia.
Qed.

Lemma bits_value_cons (b : bool) (v : list bool) :
  bits_value (b :: v) = 2 * bits_value v + Z.b2z b.
Proof. simpl. destruct b; simpl Z.b2z; unfold int_of_bool; lia. Qed.

Lemma bits_value_bounds (v : list bool) :
  0 ≤ bits_value v < 2 ^ Z.of_nat (length v).
Proof.
  induction v as [|b v IH]; [simpl; lia|].
  rewrite bits_value_cons. cbn [length].
  rewrite Nat2Z.inj_succ, Z.pow_succ_r by lia.
  destruct b; simpl Z.b2z; lia.
Qed.

Lemma testbit_bits_value (v : list bool) :
  ∀ i b, v !! i = Some b → Z.testbit (bits_value v) (Z.of_nat i) = b.
Proof.
  induction v as [|a v IH]; intros i b Hi; [discriminate Hi|].
  rewrite bits_value_cons. destruct i as [|i]; simpl in Hi.
  - injection Hi as ->. apply Z.testbit_0_r.
  - rewrite Nat2Z.inj_succ, Z.testbit_succ_r by lia. apply IH, Hi.
Qed.

Lemma seqZ_0_succ (m : nat) :
  seqZ 0 (Z.of_nat (S m)) = 0 :: (Z.succ <$> seqZ 0 (Z.of_nat m)).
Proof.
  rewrite seqZ_cons by lia. f_equal.
  replace (Z.pred (Z.of_nat (S m))) with (Z.of_nat m) by lia.
  change (Z.succ 0) with (1 + 0). rewrite <- fmap_add_seqZ.
  apply list_fmap_ext. intros i x _. lia.
Qed.

Lemma bits_value_testbit (m : nat) :
  ∀ n, bits_value (Z.testbit n <$> seqZ 0 (Z.of_nat m)) = n mod 2 ^ Z.of_nat m.
Proof.
  induction m as [|m IH]; intros n.
  - simpl. symmetry. apply Z.mod_1_r.
  - rewrite seqZ_0_succ, fmap_cons, bits_value_cons, <- list_fmap_compose.
    rewrite (list_fmap_ext _ (Z.testbit (n / 2)) (seqZ 0 (Z.of_nat m))).
    + rewrite IH, Nat2Z.inj_succ, Z.pow_succ_r, Z.bit0_mod by lia.
      rewrite (Z.rem_mul_r n 2) by lia. lia.
    + intros i x Hx. apply lookup_seqZ in Hx as [-> _]. simpl.
      symmetry. apply Z.div2_bits. lia.
Qed.

Lemma below_rounded_length (n : Z) :
  0 ≤ n → n < 2 ^ round_up_8 (4 * hex_digit_count n).
Proof.
  intros Hn. destruct (Z.eq_dec n 0) as [->|Hn0]; [reflexivity|].
  destruct (hex_digit_count_bounds n ltac:(lia)) as [_ Hhi].
  destruct (round_up_8_spec (4 * hex_digit_count n)) as [[Hle _] _].
  assert (0 < hex_digit_count n)
    by (unfold hex_digit_count; destruct (n =? 0);
        [lia | pose proof (Z.log2_nonneg n); Z.to_euclidean_division_equations; lia]).
  eapply Z.lt_le_trans; [exact Hhi|].
  change 16 with (2 ^ 4). rewrite <- Z.pow_mul_r by lia.
  apply Z.pow_le_mono_r; lia.
Qed.

Lemma py_getitem_list (l : list scalar) (i : nat) (x : scalar) :
  l !! i = Some x → py_getitem (VList l) (Z.of_nat i) = Ok x.
Proof.
  intros H. pose proof (lookup_lt_Some _ _ _ H) as Hlt. unfold py_getitem.
  destruct (Z.ltb_spec (Z.of_nat i) 0) as [?|_]; [lia|].
  destruct (Z.leb_spec 0 (Z.of_nat i)) as [_|?]; [|lia].
  destruct (Z.ltb_spec (Z.of_nat i) (Z.of_nat (length l))) as [_|?]; [|lia].
  simpl. rewrite Nat2Z.id, H. reflexivity.
Qed.

Lemma sum_bits_seq (v : list bool) :
  ∀ pre acc,
    BitFieldFile.sum_bits (VList (SBool <$> (pre ++ v)))
      (seqZ (Z.of_nat (length pre)) (Z.of_nat (length v))) acc
    = Ok (acc + 2 ^ Z.of_nat (length pre) * bits_value v).
Proof.
  induction v as [|b v IH]; intros pre acc.
  - simpl. f_equal. lia.
  - cbn [length]. rewrite seqZ_cons by lia.
    replace (Z.pred (Z.of_nat (S (length v)))) with (Z.of_nat (length v)) by lia.
    cbn [BitFieldFile.sum_bits].
    rewrite (py_getitem_list _ (length pre) (SBool b))
      by (rewrite list_lookup_fmap, list_lookup_middle by reflexivity;
          reflexivity).
    rewrite bind_Ok.
    replace (pre ++ b :: v) with ((pre ++ [b]) ++ v) by (by rewrite <- app_assoc).
    replace (Z.succ (Z.of_nat (length pre)))
      with (Z.of_nat (length (pre ++ [b]))) by (rewrite length_app; simpl; lia).
    rewrite IH. f_equal. rewrite length_app. cbn [length].
    rewrite Z.shiftl_mul_pow2 by lia.
    replace (Z.of_nat (length pre + 1)) with (Z.succ (Z.of_nat (length pre))) by lia.
    rewrite Z.pow_succ_r by lia. rewrite bits_value_cons.
    simpl py_bool. destruct b; simpl; lia.
Qed.

Lemma sanitize_set_bits (v : list bool) :
  BitFieldFile.sanitize_set (VList (SBool <$> v)) = Ok (VInt (bits_value v)).
Proof.
  unfold BitFieldFile.sanitize_set. simpl try_encode. cbv zeta.
  cbn [is_bytes is_Iterable orb negb py_len]. rewrite bind_Ok.
  unfold py_range. rewrite Z.sub_0_r, length_fmap.
  pose proof (sum_bits_seq v [] 0) as H.
  change (Z.of_nat (length [])) with 0 in H. change ([] ++ v) with v in H.
  rewrite H, bind_Ok. do 3 f_equal. change (2 ^ 0) with 1. lia.
Qed.

Lemma testbits_bits_value (v : list bool) :
  Z.testbit (bits_value v) <$> seqZ 0 (Z.of_nat (length v)) = v.
Proof.
  apply list_eq. intros i. rewrite list_lookup_fmap.
  destruct (v !! i) as [b|] eqn:E.
  - pose proof (lookup_lt_Some _ _ _ E) as Hlt.
    rewrite lookup_seqZ_lt by lia. simpl. f_equal.
    apply testbit_bits_value, E.
  - apply lookup_ge_None in E. rewrite lookup_seqZ_ge by lia. reflexivity.
Qed.

Lemma py_int_str_of_int (n : Z) : py_int (VStr (str_of_int n)) = Ok n.
Proof. simpl. rewrite parse_int_str_of_int. reflexivity. Qed.

Lemma hex_digit_count_pos (n : Z) : 0 < hex_digit_count n.
Proof.
  unfold hex_digit_count. destruct (n =? 0); [lia|].
  pose proof (Z.log2_nonneg n). Z.to_euclidean_division_equations. lia.
Qed.

(** The decoded length of [bits_value v] when [v] fills its bytes. *)
Lemma rounded_length_exact (v : list bool) (k : Z) :
  Z.of_nat (length v) = 8 * k →
  (k = 1 ∨ ∃ i, 8 * k - 8 ≤ Z.of_nat i ∧ v !! i = Some true) →
  round_up_8 (4 * hex_digit_count (bits_value v)) = 8 * k.
Proof.
  intros Hlen Hfull.
  destruct (bits_value_bounds v) as [Hn0 Hn]. rewrite Hlen in Hn.
  set (n := bits_value v) in *.
  pose proof (hex_digit_count_pos n) as Hc.
  assert (1 ≤ k) as Hk.
  { destruct Hfull as [->|(i & Hi & Hv)]; [lia|].
    apply lookup_lt_Some in Hv. lia. }
  assert (hex_digit_count n ≤ 2 * k) as Hup.
  { destruct (Z.eq_dec n 0) as [E|E]; [rewrite E; unfold hex_digit_count; simpl; lia|].
    destruct (hex_digit_count_bounds n ltac:(lia)) as [Hlo _].
    assert (16 ^ (hex_digit_count n - 1) < 16 ^ (2 * k)) as Hlt.
    { eapply Z.le_lt_trans; [exact Hlo|].
      change 16 with (2 ^ 4). rewrite <- Z.pow_mul_r by lia.
      replace (4 * (2 * k)) with (8 * k) by lia. exact Hn. }
    apply Z.pow_lt_mono_r_iff in Hlt; lia. }
  assert (2 * k - 1 ≤ hex_digit_count n ∨ k = 1) as Hlow.
  { destruct Hfull as [->|(i & Hi & Hv)]; [by right|]. left.
    apply testbit_bits_value in Hv. fold n in Hv.
    assert (Z.of_nat i ≤ Z.log2 n) as Hlog.
    { destruct (Z.le_gt_cases (Z.of_nat i) (Z.log2 n)) as [|Hgt]; [done|].
      rewrite Z.bits_above_log2 in Hv by lia. discriminate Hv. }
    assert (n ≠ 0) as Hne.
    { intros E. rewrite E, Z.bits_0 in Hv. discriminate Hv. }
    unfold hex_digit_count. replace (n =? 0) with false by lia.
    Z.to_euclidean_division_equations. lia. }
  unfold round_up_8. Z.to_euclidean_division_equations. lia.
Qed.

Lemma bit_field_decode_counterexample :
  (hex (-16) = "-0x10"
   ∧ round_up_8 (4 * str_len "10") = 8
   ∧ ∃ bits, BitFieldFile.sanitize_get (VStr "-16") = Ok (VList bits)
             ∧ Z.of_nat (length bits) = 16)
  ∧ (let v := true :: replicate 15 false in
     Z.of_nat (length v) = 8 * 2
     ∧ BitFieldFile.sanitize_set (VList (SBool <$> v)) = Ok (VInt 1)
     ∧ py_str (SInt 1) = "1"
     ∧ BitFieldFile.sanitize_get (VStr "1")
       = Ok (VList (SBool <$> true :: replicate 7 false))
     ∧ BitFieldFile.sanitize_get (VStr "1") ≠ Ok (VList (SBool <$> v))).
Proof.
  split.
  - split; [reflexivity|]. split; [reflexivity|].
    eexists. split; reflexivity.
  - cbv zeta. repeat split; try reflexivity.
    vm_compute. discriminate.
Qed.

(** C6, amended. For a text that parses to a non-negative integer,
    [BitFieldFile] decodes to booleans, least significant bit first, as many
    as four per hexadecimal digit of the integer rounded up to the next
    multiple of 8; element [i] is bit [i] of the integer, and the sequence
    has the integer as its value.  Encoding a sequence of booleans gives the
    integer whose bits they are.  Decoding the text of that integer
    reproduces a sequence whose length is a multiple of 8 when the length is
    8 or one of its last eight elements is true. *)
Theorem bit_field_decode :
  (hex_digit_count 0 = 1
   ∧ ∀ n, 0 < n → 16 ^ (hex_digit_count n - 1) ≤ n < 16 ^ hex_digit_count n)
  ∧ (∀ text n,
       py_int (VStr text) = Ok n → 0 ≤ n →
       ∃ bits,
         BitFieldFile.sanitize_get (VStr text) = Ok (VList (SBool <$> bits))
         ∧ Z.of_nat (length bits) = round_up_8 (4 * hex_digit_count n)
         ∧ (∀ i b, bits !! i = Some b → b = Z.testbit n (Z.of_nat i))
         ∧ bits_value bits = n)
  ∧ (∀ v, BitFieldFile.sanitize_set (VList (SBool <$> v))
          = Ok (VInt (bits_value v)))
  ∧ (∀ v k,
       Z.of_nat (length v) = 8 * k →
       (k = 1 ∨ ∃ i, 8 * k - 8 ≤ Z.of_nat i ∧ v !! i = Some true) →
       BitFieldFile.sanitize_get (VStr (py_str (SInt (bits_value v))))
       = Ok (VList (SBool <$> v))).
Proof.
  split; [split; [reflexivity | exact hex_digit_count_bounds]|].
  split; [|split; [exact sanitize_set_bits|]].
  - intros text n Hint Hn.
    pose proof (round_up_8_spec (4 * hex_digit_count n)) as [[HL _] _].
    pose proof (hex_digit_count_pos n) as Hc.
    exists (Z.testbit n <$> seqZ 0 (round_up_8 (4 * hex_digit_count n))).
    split; [exact (sanitize_get_bits text n Hint Hn)|]. split; [|split].
    + rewrite length_fmap, length_seqZ. lia.
    + intros i b Hb. rewrite list_lookup_fmap in Hb.
      destruct (seqZ _ _ !! i) as [x|] eqn:E; [|discriminate Hb].
      apply lookup_seqZ in E as [-> _]. simpl in Hb. by injection Hb as <-.
    + rewrite <- (Z2Nat.id (round_up_8 _)) by lia.
      rewrite bits_value_testbit, Z2Nat.id by lia.
      apply Z.mod_small. split; [exact Hn | apply below_rounded_length, Hn].
  - intros v k Hlen Hfull. simpl py_str.
    destruct (bits_value_bounds v) as [Hn0 _].
    rewrite (sanitize_get_bits _ _ (py_int_str_of_int _) Hn0).
    rewrite (rounded_length_exact v k Hlen Hfull), <- Hlen.
    rewrite testbits_bits_value. reflexivity.
Qed.

Lemma bit_field_decode_witness :
  (∃ bits,
     BitFieldFile.sanitize_get (VStr "2") = Ok (VList (SBool <$> bits))
     ∧ Z.of_nat (length bits) = round_up_8 (4 * hex_digit_count 2)
     ∧ (∀ i b, bits !! i = Some b → b = Z.testbit 2 (Z.of_nat i))
     ∧ bits_value bits = 2)
  ∧ BitFieldFile.sanitize_get
      (VStr (py_str (SInt (bits_value
         [false; true; false; false; false; false; false; false]))))
    = Ok (VList (SBool <$>
         [false; true; false; false; false; false; false; false])).
Proof.
  split.
  - exact (proj1 (proj2 bit_field_decode) "2" 2 eq_refl ltac:(lia)).
  - exact (proj2 (proj2 (proj2 bit_field_decode))
             [false; true; false; false; false; false; false; false] 1
             eq_refl (or_introl eq_refl)).
Defined.

(** * Further properties *)

(** ** Construction and the two access paths *)

Lemma py_bool_or (a b : pyval) : py_bool (py_or a b) = py_bool a || py_bool b.
Proof. unfold py_or. destruct (py_bool a) eqn:E; [by rewrite E | reflexivity]. Qed.

(** X1. [BaseFileInterface.__init__] refuses the arguments exactly when
    both are truthy, whatever values they are; otherwise it returns an
    accessor that is read-only iff the argument is truthy or the class
    attribute is set, and likewise write-only, with the hooks of the class
    and a file name that is no longer a [str]. *)
Theorem init_access_modes (cls : interface_class) (filename : scalar)
    (readonly writeonly : pyval) :
  (py_bool readonly && py_bool writeonly = true →
   BaseFileInterface.__init__ cls filename readonly writeonly
   = Raise (RuntimeError
              "This interface cannot be both readonly and writeonly"))
  ∧ (py_bool readonly && py_bool writeonly = false →
     ∃ self,
       BaseFileInterface.__init__ cls filename readonly writeonly = Ok self
       ∧ py_bool (self_readonly self) = py_bool readonly || cls_readonly cls
       ∧ py_bool (self_writeonly self) = py_bool writeonly || cls_writeonly cls
       ∧ self_sanitize_get self = cls_sanitize_get cls
       ∧ self_sanitize_set self = cls_sanitize_set cls
       ∧ (∀ s, self_filename self ≠ SStr s)
       ∧ (∀ s, filename = SStr s → self_filename self = SBytes (utf8 s))).
Proof.
  unfold BaseFileInterface.__init__. split; intros H; rewrite H; [reflexivity|].
  eexists. split; [reflexivity|]. cbn [self_readonly self_writeonly
    self_sanitize_get self_sanitize_set self_filename].
  rewrite !py_bool_or. repeat split.
  - intros s. destruct filename; discriminate.
  - intros s ->. reflexivity.
Qed.

Lemma init_access_modes_witness :
  BaseFileInterface.__init__ StrFile.class (SStr "notify_on_release")
    (VInt 1) (VStr "yes")
  = Raise (RuntimeError "This interface cannot be both readonly and writeonly")
  ∧ ∃ self,
      BaseFileInterface.__init__ ListFile.class (SStr "tasks") VNone VNone
      = Ok self
      ∧ py_bool (self_readonly self) = true.
Proof.
  split.
  - exact (proj1 (init_access_modes StrFile.class (SStr "notify_on_release")
                    (VInt 1) (VStr "yes")) eq_refl).
  - destruct (proj2 (init_access_modes ListFile.class (SStr "tasks")
                       VNone VNone) eq_refl) as (self & E & Hr & _).
    exists self. split; [exact E | exact Hr].
Defined.

(** X2. The [readonly] of a class cannot be lifted by the constructor: an
    accessor of a class whose attribute is set ([ListFile],
    [IntegerListFile], [SplitValueFile]) raises on every write whatever the
    arguments were, [readonly=False] included.  Built with a truthy
    [writeonly] it is constructed all the same, and then raises on every
    read too. *)
Theorem class_readonly_is_final (cls : interface_class) (filename : scalar)
    (readonly writeonly : pyval) (self : accessor) :
  cls_readonly cls = true →
  BaseFileInterface.__init__ cls filename readonly writeonly = Ok self →
  (∀ value, BaseFileInterface.__set__ self value
            = Throw (RuntimeError "This interface is readonly"))
  ∧ (py_bool writeonly = true →
     BaseFileInterface.__get__ self
     = Throw (RuntimeError "This interface is writeonly")).
Proof.
  intros Hcls. unfold BaseFileInterface.__init__.
  destruct (py_bool readonly && py_bool writeonly); [discriminate|].
  intros [= <-]. split.
  - intros value. unfold BaseFileInterface.__set__. cbn [self_readonly].
    rewrite py_bool_or, Hcls, orb_true_r. reflexivity.
  - intros Hw. unfold BaseFileInterface.__get__. cbn [self_writeonly].
    rewrite py_bool_or, Hw. reflexivity.
Qed.

Lemma class_readonly_is_final_witness :
  ∃ self,
    BaseFileInterface.__init__ ListFile.class (SStr "tasks")
      (VBool false) (VBool true) = Ok self
    ∧ (∀ value, BaseFileInterface.__set__ self value
                = Throw (RuntimeError "This interface is readonly"))
    ∧ BaseFileInterface.__get__ self
      = Throw (RuntimeError "This interface is writeonly").
Proof.
  eexists. split; [reflexivity|].
  pose proof (class_readonly_is_final ListFile.class (SStr "tasks")
                (VBool false) (VBool true) _ eq_refl eq_refl) as [Hs Hg].
  split; [exact Hs | exact (Hg eq_refl)].
Defined.

Section Paths.

Context {O : Type} (ops : owner_ops O).

(** X3. A write through an accessor that is not read-only: when the
    encode hook raises, the exception reaches the caller and the owner is
    not called; when it returns a value other than [None], the owner's
    [set_property] is called exactly once, with the accessor's file name
    and the encoded value, and the write returns or raises what that call
    did. *)
Theorem write_calls_set_property_once (self : accessor) (value : pyval) (o : O) :
  py_bool (self_readonly self) = false →
  (∀ e, self_sanitize_set self value = Raise e →
        run ops (BaseFileInterface.__set__ self value) o
        = {| returned := Raise e; final := o; calls := [] |})
  ∧ (∀ raw, self_sanitize_set self value = Ok raw → raw ≠ VNone →
            run ops (BaseFileInterface.__set__ self value) o
            = {| returned := (set_property ops o (self_filename self) raw).1;
                 final := (set_property ops o (self_filename self) raw).2;
                 calls := [CallSet (self_filename self) raw] |}).
Proof.
  intros Hr. unfold BaseFileInterface.__set__. rewrite Hr. split.
  - intros e ->. reflexivity.
  - intros raw -> Hne.
    assert (run ops (SetProperty (self_filename self) raw Return) o
            = {| returned := (set_property ops o (self_filename self) raw).1;
                 final := (set_property ops o (self_filename self) raw).2;
                 calls := [CallSet (self_filename self) raw] |}) as E.
    { simpl. destruct (set_property ops o (self_filename self) raw)
        as [[r|e] o']; reflexivity. }
    destruct raw as [[| | | | |]| | |]; try exact E. by destruct Hne.
Qed.

(** X4. A read through an accessor that is not write-only calls the
    owner's [get_property] exactly once, with the accessor's file name;
    a failure of that call reaches the caller unchanged and nothing is
    decoded, otherwise the read returns or raises what the decode hook does
    on the text the owner gave. *)
Theorem read_calls_get_property_once (self : accessor) (o : O) :
  py_bool (self_writeonly self) = false →
  calls (run ops (BaseFileInterface.__get__ self) o)
  = [CallGet (self_filename self)]
  ∧ final (run ops (BaseFileInterface.__get__ self) o)
    = (get_property ops o (self_filename self)).2
  ∧ (∀ e, (get_property ops o (self_filename self)).1 = Raise e →
          returned (run ops (BaseFileInterface.__get__ self) o) = Raise e)
  ∧ (∀ text, (get_property ops o (self_filename self)).1 = Ok text →
             returned (run ops (BaseFileInterface.__get__ self) o)
             = self_sanitize_get self text).
Proof.
  intros Hw. rewrite (run_get ops self o Hw). cbn [calls final returned].
  repeat split.
  - intros e ->. reflexivity.
  - intros text ->. reflexivity.
Qed.

End Paths.

Lemma write_calls_set_property_once_witness :
  run Node.ops (BaseFileInterface.__set__ release_agent_file (VStr "/bin/true"))
    {["release_agent" := "/sbin/agent"]}
  = {| returned := Ok VNone;
       final := {["release_agent" := "/bin/true"]};
       calls := [CallSet (SBytes "release_agent") (VStr "/bin/true")] |}.
Proof.
  rewrite (proj2 (write_calls_set_property_once Node.ops release_agent_file
                    (VStr "/bin/true") {["release_agent" := "/sbin/agent"]}
                    eq_refl) (VStr "/bin/true") eq_refl ltac:(discriminate)).
  vm_compute. reflexivity.
Defined.

Lemma read_calls_get_property_once_witness :
  calls (run Node.ops (BaseFileInterface.__get__ tasks_file)
           {["tasks" := "1 2 3"]})
  = [CallGet (SBytes "tasks")].
Proof.
  exact (proj1 (read_calls_get_property_once Node.ops tasks_file
                  {["tasks" := "1 2 3"]} eq_refl)).
Defined.

(** ** What the encode hooks return *)

Lemma bind_VInt_not_None (r : result Z) :
  (n ← r; Ok (VInt n)) ≠ Ok VNone.
Proof. destruct r; discriminate. Qed.

Lemma int_or_minus_one_not_None (value : pyval) :
  int_or_minus_one value ≠ Ok VNone.
Proof. apply bind_VInt_not_None. Qed.

(** X5. Apart from the pass-through hook of the base class and the one of
    [TypedFile], no encode hook ever returns [None], so a write through
    any of these codecs is never skipped: it raises or it reaches the
    owner.  Writing [None] through [IntegerFile] writes -1. *)
Theorem encode_hooks_never_skip (set_iter : gset Z → list Z) (value : pyval) :
  FlagFile.sanitize_set value ≠ Ok VNone
  ∧ BitFieldFile.sanitize_set value ≠ Ok VNone
  ∧ IntegerFile.sanitize_set value ≠ Ok VNone
  ∧ DictFile.sanitize_set value ≠ Ok VNone
  ∧ IntegerListFile.sanitize_set value ≠ Ok VNone
  ∧ CommaDashSetFile.sanitize_set set_iter value ≠ Ok VNone
  ∧ MultiLineIntegerFile.sanitize_set value ≠ Ok VNone
  ∧ DictAndFlagFile.sanitize_set value ≠ Ok VNone
  ∧ ∀ O (ops : owner_ops O) (o : O) (self : accessor),
      py_bool (self_readonly self) = false →
      self_sanitize_set self = IntegerFile.sanitize_set →
      calls (run ops (BaseFileInterface.__set__ self VNone) o)
      = [CallSet (self_filename self) (VInt (-1))].
Proof.
  repeat split; try discriminate.
  - unfold BitFieldFile.sanitize_set.
    destruct (is_bytes _ || negb _); [apply bind_VInt_not_None|].
    destruct (py_len _); [|discriminate]. apply bind_VInt_not_None.
  - apply bind_VInt_not_None.
  - destruct value; discriminate.
  - apply int_or_minus_one_not_None.
  - unfold CommaDashSetFile.sanitize_set.
    destruct (py_len value) as [len|]; [|discriminate]. simpl.
    destruct (len =? 0); discriminate.
  - apply int_or_minus_one_not_None.
  - intros O ops o self Hr Hset. unfold BaseFileInterface.__set__.
    rewrite Hr, Hset. simpl.
    destruct (set_property ops o (self_filename self) (VInt (-1)))
      as [[r|e] o']; reflexivity.
Qed.

Lemma encode_hooks_never_skip_witness :
  calls (run Node.ops
           (BaseFileInterface.__set__
              {| self_filename := SBytes "memory.limit_in_bytes";
                 self_readonly := VBool false; self_writeonly := VBool false;
                 self_sanitize_get := IntegerFile.sanitize_get;
                 self_sanitize_set := IntegerFile.sanitize_set |} VNone) ∅)
  = [CallSet (SBytes "memory.limit_in_bytes") (VInt (-1))].
Proof.
  apply (proj2 (proj2 (proj2 (proj2 (proj2 (proj2 (proj2 (proj2
           (encode_hooks_never_skip elements VNone)))))))));
    reflexivity.
Defined.

(** ** White space around text *)

Lemma str_app_assoc (a b c : string) : (a +:+ b) +:+ c = a +:+ (b +:+ c).
Proof.
  induction a as [|x a IH]; [reflexivity|].
  change (String x ((a +:+ b) +:+ c) = String x (a +:+ b +:+ c)).
  by rewrite IH.
Qed.

Lemma str_app_nil_r (a : string) : a +:+ EmptyString = a.
Proof.
  induction a as [|x a IH]; [reflexivity|].
  change (String x (a +:+ EmptyString) = String x a). by rewrite IH.
Qed.

Lemma str_lstrip_all_blank (sp : ascii → bool) (w : string) :
  str_forall sp w = true → str_lstrip sp w = EmptyString.
Proof.
  induction w as [|c w IH]; simpl; [reflexivity|].
  intros [Hc Hw]%andb_true_iff. rewrite Hc. apply IH, Hw.
Qed.

Lemma str_lstrip_blank (sp : ascii → bool) (w s : string) :
  str_forall sp w = true → str_lstrip sp (w +:+ s) = str_lstrip sp s.
Proof.
  induction w as [|c w IH]; simpl; [reflexivity|].
  intros [Hc Hw]%andb_true_iff. rewrite Hc. apply IH, Hw.
Qed.

Lemma str_rstrip_blank (sp : ascii → bool) (w : string) :
  str_forall sp w = true → str_rstrip sp w = EmptyString.
Proof.
  induction w as [|c w IH]; simpl; [reflexivity|].
  intros [Hc Hw]%andb_true_iff. rewrite (IH Hw), Hc. reflexivity.
Qed.

Lemma str_rstrip_app_blank (sp : ascii → bool) (s w : string) :
  str_forall sp w = true → str_rstrip sp (s +:+ w) = str_rstrip sp s.
Proof.
  intros Hw. induction s as [|c s IH]; simpl.
  - apply str_rstrip_blank, Hw.
  - rewrite IH. reflexivity.
Qed.

Lemma str_rstrip_app (sp : ascii → bool) (a b : string) :
  str_rstrip sp b ≠ EmptyString →
  str_rstrip sp (a +:+ b) = a +:+ str_rstrip sp b.
Proof.
  intros Hb. induction a as [|c a IH]; [reflexivity|].
  change (String c a +:+ b) with (String c (a +:+ b)).
  change (String c a +:+ str_rstrip sp b)
    with (String c (a +:+ str_rstrip sp b)).
  cbn [str_rstrip]. rewrite IH.
  destruct (a +:+ str_rstrip sp b) eqn:E; [|reflexivity].
  destruct a; [done | discriminate E].
Qed.

(** White space on either side does not change what [strip] returns. *)
Lemma str_strip_surrounded (sp : ascii → bool) (w1 s w2 : string) :
  str_forall sp w1 = true → str_forall sp w2 = true →
  str_strip sp (w1 +:+ s +:+ w2) = str_strip sp s.
Proof.
  intros H1 H2. unfold str_strip. rewrite str_lstrip_blank by exact H1.
  induction s as [|c s IH]; simpl.
  - rewrite str_lstrip_all_blank by exact H2. reflexivity.
  - destruct (sp c); [exact IH|].
    apply (str_rstrip_app_blank sp (String c s) w2 H2).
Qed.

Lemma str_of_int_no_space (n : Z) :
  str_forall (fun c => negb (isspace c)) (str_of_int n) = true.
Proof.
  unfold str_of_int. destruct (n <? 0); [simpl|];
    (eapply str_forall_impl; [exact is_digit_not_space|]);
    (apply digits_forall; [exact decimal_digit_is_digit | lia]).
Qed.

Lemma str_of_int_nonempty (n : Z) : str_of_int n ≠ EmptyString.
Proof.
  unfold str_of_int. destruct (n <? 0); [discriminate|].
  unfold digits.
  destruct (digits_fuel_cons 10 (Z.to_nat (Z.log2 n)) n EmptyString)
    as (c & r & ->). discriminate.
Qed.


(** ** The scalar codecs *)





(** ** Splitting on white space *)

Lemma split_ws_blank (sp : ascii → bool) (w : string) :
  str_forall sp w = true → str_split_whitespace sp w = [].
Proof.
  induction w as [|c w IH]; simpl; [reflexivity|].
  intros [Hc Hw]%andb_true_iff. rewrite Hc. apply IH, Hw.
Qed.

Lemma split_ws_lead (sp : ascii → bool) (w s : string) :
  str_forall sp w = true →
  str_split_whitespace sp (w +:+ s) = str_split_whitespace sp s.
Proof.
  induction w as [|c w IH]; simpl; [reflexivity|].
  intros [Hc Hw]%andb_true_iff. rewrite Hc. apply IH, Hw.
Qed.

Lemma split_ws_token (sp : ascii → bool) (t rest : string) :
  t ≠ EmptyString → str_forall (fun c => negb (sp c)) t = true →
  breaks sp rest →
  str_split_whitespace sp (t +:+ rest) = t :: str_split_whitespace sp rest.
Proof.
  intros Hne Ht Hrest. induction t as [|a t IH]; [done|].
  simpl in Ht. apply andb_true_iff in Ht as [Ha Ht].
  apply negb_true_iff in Ha.
  change (String a t +:+ rest) with (String a (t +:+ rest)).
  cbn [str_split_whitespace]. rewrite Ha.
  destruct t as [|b t].
  - change (EmptyString +:+ rest) with rest.
    destruct rest as [|c rest]; [reflexivity|].
    simpl in Hrest. rewrite Hrest. reflexivity.
  - change (String b t +:+ rest) with (String b (t +:+ rest)) in *.
    simpl in Ht. apply andb_true_iff in Ht as [Hb Ht'].
    apply negb_true_iff in Hb. rewrite Hb.
    rewrite IH; [reflexivity | discriminate |].
    simpl. rewrite Hb. exact Ht'.
Qed.

Lemma blank_breaks (sp : ascii → bool) (w : string) :
  str_forall sp w = true → breaks sp w.
Proof. destruct w; simpl; [done|]. by intros [? _]%andb_true_iff. Qed.

Lemma is_token_spec (t : string) :
  is_token t = true
  ↔ t ≠ EmptyString ∧ str_forall (fun c => negb (isspace c)) t = true.
Proof.
  unfold is_token, nonempty. rewrite andb_true_iff, negb_true_iff.
  destruct (String.eqb_spec t EmptyString); intuition congruence.
Qed.

Lemma split_ws_join (toks : list string) (w : string) :
  Forall (fun t => is_token t = true) toks → is_blank w = true →
  str_split_whitespace isspace (str_join " " toks +:+ w) = toks.
Proof.
  intros Htoks Hw. induction toks as [|x [|y toks] IH].
  - apply split_ws_blank, Hw.
  - inversion Htoks as [|? ? Hx _]; subst. apply is_token_spec in Hx as [? ?].
    change (str_join " " [x]) with x.
    rewrite split_ws_token by (try apply blank_breaks; assumption).
    f_equal. apply split_ws_blank, Hw.
  - inversion Htoks as [|? ? Hx Hrest]; subst.
    apply is_token_spec in Hx as [? ?].
    rewrite (str_join_cons " " x y toks), str_app_assoc.
    change (String " " (str_join " " (y :: toks)) +:+ w)
      with (String " " (str_join " " (y :: toks) +:+ w)).
    rewrite split_ws_token by (assumption || reflexivity).
    f_equal. cbn [str_split_whitespace].
    change (isspace " ") with true. cbv iota. apply IH, Hrest.
Qed.

Lemma split_ws_tokens (s : string) :
  Forall (fun t => is_token t = true) (str_split_whitespace isspace s).
Proof.
  induction s as [|c s IH]; simpl; [constructor|].
  destruct (isspace c) eqn:Hc; [exact IH|].
  assert (is_token (String c EmptyString) = true) as H1
    by (unfold is_token; simpl; by rewrite Hc).
  destruct s as [|c' s']; [by repeat constructor|].
  destruct (isspace c') eqn:Hc'; [by constructor|].
  destruct (str_split_whitespace isspace (String c' s')) as [|w ws];
    [by repeat constructor|].
  inversion IH as [|? ? Hw Hws]; subst. constructor; [|exact Hws].
  apply is_token_spec in Hw as [_ Hw]. apply is_token_spec.
  split; [discriminate|]. simpl. by rewrite Hc, Hw.
Qed.

(** ** The sequence codecs *)

Lemma rmap_list_ok {A B} (f : A → result B) (g : A → B) (l : list A) :
  Forall (fun x => f x = Ok (g x)) l → rmap_list f l = Ok (g <$> l).
Proof.
  induction 1 as [|x l Hx _ IH]; simpl; [reflexivity|].
  rewrite Hx, bind_Ok, IH. reflexivity.
Qed.

Lemma rmap_list_raise {A B} (f : A → result B) (e : exn) (l : list A) :
  Forall (fun x => f x = Raise e ∨ ∃ y, f x = Ok y) l →
  Exists (fun x => f x = Raise e) l →
  rmap_list f l = Raise e.
Proof.
  induction 1 as [|x l Hx Hl IH]; intros Hex; [by inversion Hex|].
  simpl. destruct Hx as [Hx|[y Hx]]; rewrite Hx; [reflexivity|].
  rewrite bind_Ok.
  inversion Hex as [? ? Hx'|? ? Hl']; subst; [congruence|].
  rewrite (IH Hl'). reflexivity.
Qed.

Lemma rmap_list_fmap {A B C} (f : B → result C) (h : A → B) (l : list A) :
  rmap_list f (h <$> l) = rmap_list (fun x => f (h x)) l.
Proof.
  induction l as [|x l IH]; [reflexivity|].
  rewrite fmap_cons. cbn [rmap_list]. rewrite IH. reflexivity.
Qed.

Lemma str_of_int_token (n : Z) : is_token (str_of_int n) = true.
Proof.
  apply is_token_spec. split;
    [apply str_of_int_nonempty | apply str_of_int_no_space].
Qed.

Lemma list_file_join (toks : list string) (w1 w2 : string) :
  Forall (fun t => is_token t = true) toks →
  is_blank w1 = true → is_blank w2 = true →
  ListFile.sanitize_get (VStr (w1 +:+ str_join " " toks +:+ w2))
  = Ok (VList (SStr <$> toks)).
Proof.
  intros Htoks H1 H2. unfold ListFile.sanitize_get.
  rewrite split_ws_lead, split_ws_join by assumption. reflexivity.
Qed.

(** X8. [ListFile] returns the tokens of the text: each is non-empty and
    free of white space, a text of white space only gives the empty list,
    and tokens written with one space between them, with any white space
    before and after, are read back as they are. *)
Theorem list_file_tokens :
  (∀ text, ∃ toks,
     ListFile.sanitize_get (VStr text) = Ok (VList (SStr <$> toks))
     ∧ Forall (fun t => is_token t = true) toks)
  ∧ (∀ w, is_blank w = true → ListFile.sanitize_get (VStr w) = Ok (VList []))
  ∧ (∀ toks w1 w2,
       Forall (fun t => is_token t = true) toks →
       is_blank w1 = true → is_blank w2 = true →
       ListFile.sanitize_get (VStr (w1 +:+ str_join " " toks +:+ w2))
       = Ok (VList (SStr <$> toks))).
Proof.
  split; [|split].
  - intros text. exists (str_split_whitespace isspace text).
    split; [reflexivity | apply split_ws_tokens].
  - intros w Hw. unfold ListFile.sanitize_get.
    rewrite split_ws_blank by exact Hw. reflexivity.
  - exact list_file_join.
Qed.

Lemma list_file_tokens_witness :
  ListFile.sanitize_get (VStr (" " +:+ str_join " " ["a"; "b"; "c"] +:+ LF))
  = Ok (VList (SStr <$> ["a"; "b"; "c"]))
  ∧ ListFile.sanitize_get (VStr LF) = Ok (VList []).
Proof.
  split.
  - apply (proj2 (proj2 list_file_tokens)); [|reflexivity..].
    repeat apply Forall_cons_2; try reflexivity. apply Forall_nil_2.
  - exact (proj1 (proj2 list_file_tokens) LF eq_refl).
Defined.

Lemma py_int_text_cases (t : string) :
  py_int (VStr t) = Raise ValueError ∨ ∃ n, py_int (VStr t) = Ok n.
Proof. simpl. destruct (parse_int isspace t); simpl; eauto. Qed.

(** X9. [IntegerListFile] reads integers written with one space between
    them, with any white space before and after, as the list of those
    integers in order; one token that is no integer makes the whole read
    raise [ValueError]. *)
Theorem integer_list_file_decode :
  (∀ l w1 w2,
     is_blank w1 = true → is_blank w2 = true →
     IntegerListFile.sanitize_get
       (VStr (w1 +:+ str_join " " (str_of_int <$> l) +:+ w2))
     = Ok (VList (SInt <$> l)))
  ∧ (∀ text,
       Exists (fun t => parse_int isspace t = None)
         (str_split_whitespace isspace text) →
       IntegerListFile.sanitize_get (VStr text) = Raise ValueError).
Proof.
  split.
  - intros l w1 w2 H1 H2. unfold IntegerListFile.sanitize_get.
    rewrite list_file_join, bind_Ok; try assumption.
    + rewrite !rmap_list_fmap, (rmap_list_ok _ id).
      * rewrite bind_Ok, list_fmap_id. reflexivity.
      * apply Forall_forall. intros n _. apply py_int_str_of_int.
    + apply Forall_fmap, Forall_forall. intros n _. apply str_of_int_token.
  - intros text Hbad. unfold IntegerListFile.sanitize_get.
    change (ListFile.sanitize_get (VStr text))
      with (Ok (VList (SStr <$> str_split_whitespace isspace text))
            : result pyval).
    rewrite bind_Ok, rmap_list_fmap, (rmap_list_raise _ ValueError);
      [reflexivity| |].
    + apply Forall_forall. intros t _. apply py_int_text_cases.
    + eapply Exists_impl; [exact Hbad|]. intros t Ht. simpl. by rewrite Ht.
Qed.

Lemma integer_list_file_decode_witness :
  IntegerListFile.sanitize_get
    (VStr (EmptyString +:+ str_join " " (str_of_int <$> [253; 317; -4]) +:+ LF))
  = Ok (VList (SInt <$> [253; 317; -4]))
  ∧ IntegerListFile.sanitize_get (VStr "1 two 3") = Raise ValueError.
Proof.
  split.
  - exact (proj1 integer_list_file_decode [253; 317; -4] EmptyString LF
             eq_refl eq_refl).
  - apply (proj2 integer_list_file_decode).
    change (str_split_whitespace isspace "1 two 3") with ["1"; "two"; "3"].
    apply Exists_cons_tl, Exists_cons_hd. reflexivity.
Defined.

(** ** Lines of integers *)

Lemma row_line_no_space (row : option Z) :
  str_forall (fun c => negb (isspace c)) (row_line row) = true.
Proof. destruct row; [apply str_of_int_no_space | reflexivity]. Qed.

Lemma str_lstrip_token (t x : string) :
  is_token t = true → str_lstrip isspace (t +:+ x) = t +:+ x.
Proof.
  intros [Hne Ht]%is_token_spec. destruct t as [|c t]; [done|].
  simpl in Ht. apply andb_true_iff in Ht as [Hc _].
  apply negb_true_iff in Hc.
  change (String c t +:+ x) with (String c (t +:+ x)). simpl.
  rewrite Hc. reflexivity.
Qed.

Lemma rows_rstrip (rows : list (option Z)) (n : Z) :
  last rows = Some (Some n) →
  str_rstrip isspace (str_join LF (row_line <$> rows))
  = str_join LF (row_line <$> rows)
  ∧ str_join LF (row_line <$> rows) ≠ EmptyString.
Proof.
  induction rows as [|r [|r' rest] IH]; intros Hlast; [discriminate| |].
  - injection Hlast as ->. simpl. split;
      [apply str_rstrip_id, str_of_int_no_space | apply str_of_int_nonempty].
  - destruct (IH Hlast) as [IH1 IH2].
    set (X := str_join LF (row_line <$> r' :: rest)) in *.
    change (str_join LF (row_line <$> r :: r' :: rest))
      with (row_line r +:+ String "010" X).
    assert (str_rstrip isspace (String "010" X) = String "010" X) as E.
    { cbn [str_rstrip]. rewrite IH1. destruct X; [done | reflexivity]. }
    split.
    + rewrite str_rstrip_app; rewrite E; [reflexivity | discriminate].
    + destruct (row_line r); discriminate.
Qed.

Lemma rows_strip (rows : list (option Z)) :
  head rows ≠ Some None → last rows ≠ Some None →
  str_strip isspace (str_join LF (row_line <$> rows))
  = str_join LF (row_line <$> rows).
Proof.
  intros Hhead Hlast. destruct rows as [|r rows]; [reflexivity|].
  destruct r as [n|]; [|done].
  destruct (last (Some n :: rows)) as [[m|]|] eqn:El; [|done|].
  - destruct (rows_rstrip _ m El) as [Hr _].
    unfold str_strip. rewrite <- Hr at 2. f_equal.
    destruct rows as [|r' rest].
    + simpl. rewrite <- (str_app_nil_r (str_of_int n)).
      apply str_lstrip_token, str_of_int_token.
    + change (str_join LF (row_line <$> Some n :: r' :: rest))
        with (str_of_int n
              +:+ String "010" (str_join LF (row_line <$> r' :: rest))).
      apply str_lstrip_token, str_of_int_token.
  - by apply last_None in El.
Qed.

Lemma rows_filter (rows : list (option Z)) :
  filter (fun val => nonempty val = true) (row_line <$> rows)
  = str_of_int <$> omap id rows.
Proof.
  induction rows as [|[n|] rows IH]; [reflexivity| |].
  - rewrite fmap_cons, filter_cons_True.
    + simpl. by rewrite IH.
    + unfold nonempty. simpl.
      destruct (String.eqb_spec (str_of_int n) EmptyString) as [E|_];
        [by apply str_of_int_nonempty in E | reflexivity].
  - rewrite fmap_cons, filter_cons_False by (simpl; discriminate).
    exact IH.
Qed.

Lemma rows_split (rows : list (option Z)) :
  rows ≠ [] →
  str_split "010" (str_join LF (row_line <$> rows)) = row_line <$> rows.
Proof.
  intros Hne. apply str_split_join.
  - destruct rows; [done | discriminate].
  - apply Forall_fmap, Forall_forall. intros r _. simpl.
    apply (str_contains_forall "010" (fun c => negb (isspace c)));
      [reflexivity | apply row_line_no_space].
Qed.

(** X10. [MultiLineIntegerFile] reads a file of one integer per line, empty
    lines in between allowed and any white space before and after the
    lines ignored, as the list of the integers in order.  What it reads it
    cannot write: every value it returns is a list, and its encode hook
    raises [TypeError] on a list. *)
Theorem multi_line_integer_file_decode :
  (∀ rows w1 w2,
     is_blank w1 = true → is_blank w2 = true →
     head rows ≠ Some None → last rows ≠ Some None →
     MultiLineIntegerFile.sanitize_get
       (VStr (w1 +:+ str_join LF (row_line <$> rows) +:+ w2))
     = Ok (VList (SInt <$> omap id rows)))
  ∧ (∀ value r,
       MultiLineIntegerFile.sanitize_get value = Ok r →
       (∃ l, r = VList (SInt <$> l))
       ∧ MultiLineIntegerFile.sanitize_set r = Raise TypeError).
Proof.
  split.
  - intros rows w1 w2 H1 H2 Hhead Hlast.
    unfold MultiLineIntegerFile.sanitize_get.
    rewrite str_strip_surrounded, rows_strip by assumption.
    destruct rows as [|r rows]; [reflexivity|].
    rewrite rows_split, rows_filter by discriminate.
    rewrite rmap_list_fmap, (rmap_list_ok _ id).
    + rewrite bind_Ok, list_fmap_id. reflexivity.
    + apply Forall_forall. intros n _. apply py_int_str_of_int.
  - intros value r. unfold MultiLineIntegerFile.sanitize_get.
    destruct value as [[| | |s| |]| | |]; try discriminate.
    destruct (rmap_list _ _) as [int_list|]; [|discriminate].
    intros [= <-]. split; [by eexists | reflexivity].
Qed.

Lemma multi_line_integer_file_decode_witness :
  MultiLineIntegerFile.sanitize_get
    (VStr (EmptyString
           +:+ str_join LF (row_line <$> [Some 8; None; Some (-3)]) +:+ LF))
  = Ok (VList (SInt <$> omap id [Some 8; None; Some (-3)]))
  ∧ MultiLineIntegerFile.sanitize_set (VList [SInt 8])
    = Raise TypeError.
Proof.
  split.
  - apply (proj1 multi_line_integer_file_decode); (reflexivity || discriminate).
  - exact (proj2 (proj2 multi_line_integer_file_decode
                    (VStr "8") (VList [SInt 8]) eq_refl)).
Defined.

(** ** Mappings, line by line *)

Lemma split_ws_no_space (s : string) :
  str_forall (fun c => negb (isspace c)) s = true →
  str_split_whitespace isspace s = if nonempty s then [s] else [].
Proof.
  intros Hs. destruct s as [|c s]; [reflexivity|].
  rewrite <- (str_app_nil_r (String c s)) at 1.
  rewrite split_ws_token; [reflexivity | discriminate | exact Hs | exact I].
Qed.

Lemma split_ws_dict_line (k : string) (v : Z) :
  is_token k = true →
  str_split_whitespace isspace (dict_line (k, v)) = [k; str_of_int v].
Proof.
  intros [Hne Hk]%is_token_spec. unfold dict_line. simpl.
  change (k +:+ " " +:+ str_of_int v) with (k +:+ String " " (str_of_int v)).
  rewrite split_ws_token by (assumption || reflexivity). f_equal.
  cbn [str_split_whitespace]. change (isspace " ") with true. cbv iota.
  rewrite split_ws_no_space by apply str_of_int_no_space.
  pose proof (str_of_int_nonempty v) as Hv. unfold nonempty.
  destruct (String.eqb_spec (str_of_int v) EmptyString); [done | reflexivity].
Qed.

Lemma add_line_dict_line (res : list (string * Z)) (k : string) (v : Z) :
  is_token k = true →
  DictFile.add_line res (dict_line (k, v)) = Ok (dict_set res k v).
Proof.
  intros Hk. unfold DictFile.add_line.
  rewrite split_ws_dict_line, py_int_str_of_int by exact Hk. reflexivity.
Qed.

Lemma add_line_cases (res : list (string * Z)) (el : string) :
  DictFile.add_line res el = Raise ValueError
  ∨ ∃ res', DictFile.add_line res el = Ok res'.
Proof.
  unfold DictFile.add_line.
  destruct (str_split_whitespace isspace el) as [|key [|val [|? ?]]]; auto.
  destruct (py_int_text_cases val) as [->|[n ->]]; simpl; eauto.
Qed.

Lemma loop_raise (lines : list string) :
  Exists (fun el => ∀ res, DictFile.add_line res el = Raise ValueError) lines →
  ∀ res, DictFile.loop res lines = Raise ValueError.
Proof.
  induction lines as [|el lines IH]; intros Hex res; [by inversion Hex|].
  simpl. destruct (add_line_cases res el) as [->|[res' E]]; [reflexivity|].
  rewrite E, bind_Ok. inversion Hex as [? ? Hbad|? ? Hrest]; subst.
  - rewrite Hbad in E. discriminate E.
  - apply IH, Hrest.
Qed.

Lemma loop_dict_lines (kvs : list (string * Z)) :
  Forall (fun kv => is_token kv.1 = true) kvs →
  ∀ res, DictFile.loop res (dict_line <$> kvs)
         = Ok (fold_left (fun d kv => dict_set d kv.1 kv.2) kvs res).
Proof.
  induction 1 as [|[k v] kvs Hk _ IH]; intros res; [reflexivity|].
  rewrite fmap_cons. cbn [DictFile.loop].
  rewrite add_line_dict_line, bind_Ok by exact Hk. apply IH.
Qed.

Lemma dict_line_no_LF (kv : string * Z) :
  is_token kv.1 = true → str_contains "010" (dict_line kv) = false.
Proof.
  intros [_ Hk]%is_token_spec. unfold dict_line.
  rewrite !str_contains_app.
  rewrite (str_contains_forall "010" (fun c => negb (isspace c)) kv.1),
    (str_contains_forall "010" (fun c => negb (isspace c)) (str_of_int kv.2));
    [reflexivity | reflexivity | apply str_of_int_no_space
    | reflexivity | exact Hk].
Qed.

Lemma dict_lines_split (kvs : list (string * Z)) :
  kvs ≠ [] → Forall (fun kv => is_token kv.1 = true) kvs →
  str_split "010" (str_join LF (dict_line <$> kvs)) = dict_line <$> kvs.
Proof.
  intros Hne Hk. apply str_split_join.
  - destruct kvs; [done | discriminate].
  - apply Forall_fmap. eapply Forall_impl; [exact Hk|].
    intros kv. apply dict_line_no_LF.
Qed.

(** *** The mapping under construction *)

Lemma dict_set_fresh (d : list (string * Z)) (k : string) (v : Z) :
  k ∉ d.*1 → dict_set d k v = d ++ [(k, v)].
Proof.
  induction d as [|[k' v'] d IH]; simpl; intros Hk; [reflexivity|].
  apply not_elem_of_cons in Hk as [Hne Hk].
  destruct (String.eqb_spec k' k) as [->|_]; [done|]. by rewrite IH.
Qed.

Lemma dict_set_keys (d : list (string * Z)) (k : string) (v : Z) :
  (dict_set d k v).*1 = if bool_decide (k ∈ d.*1) then d.*1 else d.*1 ++ [k].
Proof.
  induction d as [|[k' v'] d IH]; [reflexivity|].
  cbn [dict_set]. rewrite !fmap_cons. cbn [fst].
  destruct (String.eqb_spec k' k) as [->|Hne].
  - rewrite bool_decide_eq_true_2 by apply list_elem_of_here. reflexivity.
  - rewrite fmap_cons, IH. cbn [fst].
    case_bool_decide as H1; case_bool_decide as H2; try reflexivity.
    + destruct H2. by apply list_elem_of_further.
    + apply elem_of_cons in H2 as [->|H2]; done.
Qed.

Lemma dict_set_NoDup (d : list (string * Z)) (k : string) (v : Z) :
  NoDup d.*1 → NoDup (dict_set d k v).*1.
Proof.
  intros Hd. rewrite dict_set_keys. case_bool_decide as Hk; [exact Hd|].
  apply NoDup_app. split; [exact Hd|]. split; [|apply NoDup_singleton].
  intros x Hx Hx'. apply list_elem_of_singleton in Hx' as ->. done.
Qed.

Lemma dict_get_set (d : list (string * Z)) (k k' : string) (v : Z) :
  dict_get (dict_set d k v) k'
  = if String.eqb k k' then Some v else dict_get d k'.
Proof.
  induction d as [|[k0 v0] d IH]; simpl.
  - reflexivity.
  - destruct (String.eqb_spec k0 k) as [->|Hne]; simpl.
    + destruct (String.eqb k k'); reflexivity.
    + rewrite IH. destruct (String.eqb_spec k0 k') as [->|_]; [|reflexivity].
      destruct (String.eqb_spec k k'); [congruence | reflexivity].
Qed.

Lemma dict_get_app (d1 d2 : list (string * Z)) (k : string) :
  dict_get (d1 ++ d2) k
  = match dict_get d1 k with Some v => Some v | None => dict_get d2 k end.
Proof.
  induction d1 as [|[k0 v0] d1 IH]; simpl; [reflexivity|].
  destruct (String.eqb k0 k); [reflexivity | exact IH].
Qed.

Lemma fold_dict_set_NoDup (kvs res : list (string * Z)) :
  NoDup res.*1 →
  NoDup (fold_left (fun d kv => dict_set d kv.1 kv.2) kvs res).*1.
Proof.
  revert res. induction kvs as [|kv kvs IH]; intros res Hres; [exact Hres|].
  simpl. apply IH, dict_set_NoDup, Hres.
Qed.

Lemma fold_dict_set_get (kvs res : list (string * Z)) (k : string) :
  dict_get (fold_left (fun d kv => dict_set d kv.1 kv.2) kvs res) k
  = match dict_get (reverse kvs) k with
    | Some v => Some v
    | None => dict_get res k
    end.
Proof.
  revert res. induction kvs as [|[k0 v0] kvs IH]; intros res; [reflexivity|].
  simpl fold_left. rewrite IH, reverse_cons, dict_get_app, dict_get_set.
  simpl. destruct (dict_get (reverse kvs) k); [reflexivity|].
  destruct (String.eqb k0 k); reflexivity.
Qed.

Lemma fold_dict_set_fresh (kvs res : list (string * Z)) :
  NoDup (res ++ kvs).*1 →
  fold_left (fun d kv => dict_set d kv.1 kv.2) kvs res = res ++ kvs.
Proof.
  revert res. induction kvs as [|[k v] kvs IH]; intros res Hnd.
  - by rewrite app_nil_r.
  - simpl. rewrite dict_set_fresh.
    + rewrite IH; rewrite <- app_assoc; [reflexivity | exact Hnd].
    + rewrite fmap_app in Hnd. apply NoDup_app in Hnd as (_ & Hdisj & _).
      intros Hk. apply (Hdisj k Hk). simpl. apply list_elem_of_here.
Qed.

(** X11. [DictFile] reads lines of a key, one space and an integer, the
    keys distinct tokens, as the mapping of each key to its integer, in
    the order of the lines.  (The text must have a line: see C10.) *)
Theorem dict_file_decode_lines (d : list (string * Z)) :
  d ≠ [] → NoDup d.*1 → Forall (fun kv => is_token kv.1 = true) d →
  DictFile.sanitize_get (VStr (str_join LF (dict_line <$> d))) = Ok (VDict d).
Proof.
  intros Hne Hnd Hk. unfold DictFile.sanitize_get, split_text.
  rewrite bind_Ok, dict_lines_split, loop_dict_lines by assumption.
  rewrite bind_Ok, fold_dict_set_fresh by exact Hnd. reflexivity.
Qed.

Lemma dict_file_decode_lines_witness :
  DictFile.sanitize_get
    (VStr (str_join LF (dict_line <$> [("cache", 4096); ("rss", -1)])))
  = Ok (VDict [("cache", 4096); ("rss", -1)]).
Proof.
  apply dict_file_decode_lines.
  - discriminate.
  - apply (bool_decide_unpack _). vm_compute. exact I.
  - repeat apply Forall_cons_2; try reflexivity. apply Forall_nil_2.
Defined.

(** X12. When a key comes on several lines, the mapping [DictFile] returns
    holds it once, with the integer of its last line; no decoded mapping
    has a key twice. *)
Theorem dict_file_last_line_wins :
  (∀ kvs,
     kvs ≠ [] → Forall (fun kv => is_token kv.1 = true) kvs →
     ∃ d,
       DictFile.sanitize_get (VStr (str_join LF (dict_line <$> kvs)))
       = Ok (VDict d)
       ∧ NoDup d.*1
       ∧ ∀ k, dict_get d k = dict_get (reverse kvs) k)
  ∧ (∀ value d, DictFile.sanitize_get value = Ok (VDict d) → NoDup d.*1).
Proof.
  split.
  - intros kvs Hne Hk.
    exists (fold_left (fun d kv => dict_set d kv.1 kv.2) kvs []).
    split; [|split].
    + unfold DictFile.sanitize_get, split_text.
      rewrite bind_Ok, dict_lines_split, loop_dict_lines by assumption.
      reflexivity.
    + apply fold_dict_set_NoDup. constructor.
    + intros k. rewrite fold_dict_set_get.
      destruct (dict_get (reverse kvs) k); reflexivity.
  - intros value d. unfold DictFile.sanitize_get.
    destruct (split_text "010" value) as [lines|]; [|discriminate].
    rewrite bind_Ok.
    assert (∀ lines res res',
              NoDup res.*1 → DictFile.loop res lines = Ok res' →
              NoDup res'.*1) as Hloop.
    { clear. induction lines as [|el lines IH]; intros res res' Hres; simpl.
      - by intros [= <-].
      - unfold DictFile.add_line at 1.
        destruct (str_split_whitespace isspace el) as [|key [|val [|? ?]]];
          try discriminate.
        destruct (py_int (VStr val)) as [n|]; [|discriminate].
        rewrite !bind_Ok. apply IH, dict_set_NoDup, Hres. }
    destruct (DictFile.loop [] lines) as [res|] eqn:E; [|discriminate].
    intros [= <-]. eapply Hloop; [|exact E]. constructor.
Qed.

Lemma dict_file_last_line_wins_witness :
  ∃ d,
    DictFile.sanitize_get
      (VStr (str_join LF (dict_line <$> [("a", 1); ("b", 2); ("a", 3)])))
    = Ok (VDict d)
    ∧ NoDup d.*1
    ∧ ∀ k, dict_get d k = dict_get (reverse [("a", 1); ("b", 2); ("a", 3)]) k.
Proof.
  apply (proj1 dict_file_last_line_wins).
  - discriminate.
  - repeat apply Forall_cons_2; try reflexivity. apply Forall_nil_2.
Defined.

Lemma str_split_trailing (sep : ascii) (s : string) :
  ∃ ws, str_split sep (s +:+ String sep EmptyString) = ws ++ [EmptyString]
        ∧ ws ≠ [].
Proof.
  induction s as [|c s (ws & E & Hne)].
  - exists [EmptyString]. simpl. unfold eqc. rewrite Ascii.eqb_refl. done.
  - change (String c s +:+ String sep EmptyString)
      with (String c (s +:+ String sep EmptyString)).
    cbn [str_split]. rewrite E. destruct (eqc c sep).
    + exists (EmptyString :: ws). done.
    + destruct ws as [|w ws]; [done|]. exists (String c w :: ws). done.
Qed.

(** X13. [DictFile] cannot read what it writes: for every mapping whose
    keys hold no white space, decoding the encoded text raises
    [ValueError] (the keys joined with commas make one line of at most
    one token).  And any text with a line that is empty or blank, such as
    a text that ends with a line break, raises [ValueError] too. *)
Theorem dict_file_encode_not_decodable :
  (∀ d,
     Forall (fun kv => str_forall (fun c => negb (isspace c)) kv.1 = true) d →
     decode_encode DictFile.class (VDict d) = Raise ValueError)
  ∧ (∀ text, DictFile.sanitize_get (VStr (text +:+ LF)) = Raise ValueError).
Proof.
  assert (∀ el, length (str_split_whitespace isspace el) ≠ 2%nat →
                ∀ res, DictFile.add_line res el = Raise ValueError) as Hbad.
  { intros el Hlen res. unfold DictFile.add_line.
    destruct (str_split_whitespace isspace el) as [|key [|val [|? ?]]];
      try reflexivity. by destruct Hlen. }
  split.
  - intros d Hd. unfold decode_encode.
    cbn [cls_sanitize_set cls_sanitize_get DictFile.class].
    unfold DictFile.sanitize_set. rewrite bind_Ok.
    set (text := str_join "," _).
    assert (str_forall (fun c => negb (isspace c)) text = true) as Htext.
    { apply (str_forall_join _ ","); [reflexivity|].
      apply Forall_fmap. eapply Forall_impl; [exact Hd|]. by intros [k v]. }
    unfold DictFile.sanitize_get, split_text. rewrite bind_Ok.
    rewrite str_split_no_sep
      by (apply (str_contains_forall "010" (fun c => negb (isspace c)));
          [reflexivity | exact Htext]).
    cbn [DictFile.loop]. rewrite Hbad; [reflexivity|].
    rewrite split_ws_no_space by exact Htext. by destruct (nonempty text).
  - intros text. unfold DictFile.sanitize_get, split_text.
    rewrite bind_Ok, loop_raise; [reflexivity|]. unfold LF.
    destruct (str_split_trailing "010" text) as (ws & -> & _).
    apply Exists_app. right. apply Exists_cons_hd. apply Hbad. discriminate.
Qed.

Lemma dict_file_encode_not_decodable_witness :
  decode_encode DictFile.class (VDict [("a", 1); ("b", 2)]) = Raise ValueError.
Proof.
  apply (proj1 dict_file_encode_not_decodable).
  repeat apply Forall_cons_2; try reflexivity. apply Forall_nil_2.
Defined.

(** ** The compact range notation, item by item *)

Lemma str_of_int_nonneg_digits (n : Z) :
  0 ≤ n → str_forall is_digit (str_of_int n) = true.
Proof. intros Hn. apply (str_of_int_digits n Hn). Qed.

Lemma item_text_digits_dash (it : range_item) :
  item_nonneg it →
  str_forall (fun c => is_digit c || eqc c "-") (item_text it) = true.
Proof.
  assert (∀ n, 0 ≤ n →
               str_forall (fun c => is_digit c || eqc c "-") (str_of_int n)
               = true) as Hd.
  { intros n Hn. eapply str_forall_impl; [|apply str_of_int_nonneg_digits, Hn].
    intros c ->. reflexivity. }
  destruct it as [n|a b]; simpl.
  - apply Hd.
  - intros [Ha Hb]. rewrite str_forall_app, Hd by exact Ha. simpl.
    apply Hd, Hb.
Qed.

Lemma group_elems_item (it : range_item) :
  item_nonneg it →
  ∃ new, CommaDashSetFile.group_elems (item_text it) = Ok new
         ∧ ∀ x, x ∈ new ↔ item_covers it x.
Proof.
  destruct it as [n|a b]; simpl.
  - intros Hn. exists [n]. split; [apply group_elems_str_of_int, Hn|].
    intros x. apply list_elem_of_singleton.
  - intros [Ha Hb]. exists (py_range a (b + 1)).
    split; [|intros x; apply elem_of_py_range].
    unfold CommaDashSetFile.group_elems.
    change (str_of_int a +:+ "-" +:+ str_of_int b)
      with (str_of_int a +:+ String "-" (str_of_int b)).
    rewrite str_contains_sep, str_split_app, str_split_no_sep.
    + rewrite !py_int_str_of_int. reflexivity.
    + apply (str_contains_forall "-" is_digit);
        [reflexivity | apply str_of_int_nonneg_digits, Hb].
    + apply (str_contains_forall "-" is_digit);
        [reflexivity | apply str_of_int_nonneg_digits, Ha].
Qed.

Lemma loop_items (items : list range_item) :
  Forall item_nonneg items →
  ∀ elems, ∃ l,
    CommaDashSetFile.loop elems (item_text <$> items) = Ok l
    ∧ ∀ x, x ∈ l ↔ x ∈ elems ∨ ∃ it, it ∈ items ∧ item_covers it x.
Proof.
  induction 1 as [|it items Hit _ IH]; intros elems.
  - exists elems. split; [reflexivity|]. intros x. split; [auto|].
    intros [Hx|(it & Hit & _)]; [done | by apply elem_of_nil in Hit].
  - destruct (group_elems_item it Hit) as (new & Hnew & Hcov).
    destruct (IH (elems ++ new)) as (l & Hl & Hmem).
    exists l. rewrite fmap_cons. cbn [CommaDashSetFile.loop].
    rewrite Hnew, bind_Ok. split; [exact Hl|].
    intros x. rewrite Hmem, elem_of_app, Hcov. split.
    + intros [[Hx|Hx]|(it' & Hit' & Hx)]; [by left | right | right].
      * exists it. split; [apply list_elem_of_here | exact Hx].
      * exists it'. split; [by apply list_elem_of_further | exact Hx].
    + intros [Hx|(it' & Hit' & Hx)]; [by left; left|].
      apply elem_of_cons in Hit' as [->|Hit']; [by left; right|].
      right. by exists it'.
Qed.

(** X14. [CommaDashSetFile] reads a text of non-negative integers and
    ranges of them, separated by commas and with any white space before and
    after, as the set of the integers listed and of those each range
    spans, ends included; a range whose end is below its start adds
    nothing. *)
Theorem comma_dash_set_items (items : list range_item) (w1 w2 : string) :
  Forall item_nonneg items → is_blank w1 = true → is_blank w2 = true →
  ∃ s,
    CommaDashSetFile.sanitize_get
      (VStr (w1 +:+ str_join "," (item_text <$> items) +:+ w2))
    = Ok (VSet s)
    ∧ ∀ x, x ∈ s ↔ ∃ it, it ∈ items ∧ item_covers it x.
Proof.
  intros Hitems H1 H2. unfold CommaDashSetFile.sanitize_get.
  rewrite str_strip_surrounded by assumption.
  assert (Forall (fun t => str_forall (fun c => is_digit c || eqc c "-") t = true)
            (item_text <$> items)) as Htext.
  { apply Forall_fmap. eapply Forall_impl; [exact Hitems|].
    intros it. apply item_text_digits_dash. }
  rewrite str_strip_id.
  - destruct items as [|it items].
    + exists ∅. split; [reflexivity|]. intros x. split; [set_solver|].
      intros (it & Hit & _). by apply elem_of_nil in Hit.
    + rewrite str_split_join.
      * destruct (loop_items (it :: items) Hitems []) as (l & -> & Hmem).
        exists (list_to_set l). split; [reflexivity|]. intros x.
        rewrite elem_of_list_to_set, Hmem, elem_of_nil. tauto.
      * discriminate.
      * eapply Forall_impl; [exact Htext|]. intros t.
        apply (str_contains_forall "," (fun c => is_digit c || eqc c "-")).
        reflexivity.
  - apply (str_forall_join (fun c => negb (isspace c)) ","); [reflexivity|].
    eapply Forall_impl; [exact Htext|]. intros t.
    apply str_forall_impl. intros c [Hc|Hc]%orb_true_iff.
    + apply is_digit_not_space, Hc.
    + apply eqc_true in Hc as ->. reflexivity.
Qed.

Lemma comma_dash_set_items_witness :
  ∃ s,
    CommaDashSetFile.sanitize_get
      (VStr (EmptyString
             +:+ str_join "," (item_text <$> [Range 0 3; Single 8; Range 5 4])
             +:+ LF))
    = Ok (VSet s)
    ∧ ∀ x, x ∈ s ↔ ∃ it, it ∈ [Range 0 3; Single 8; Range 5 4]
                         ∧ item_covers it x.
Proof.
  apply comma_dash_set_items; [|reflexivity..].
  repeat apply Forall_cons_2; simpl; try lia. apply Forall_nil_2.
Defined.

(** *** Negative elements *)

Lemma group_elems_negative (n : Z) :
  n < 0 → CommaDashSetFile.group_elems (str_of_int n) = Raise ValueError.
Proof.
  intros Hn. unfold CommaDashSetFile.group_elems, str_of_int.
  replace (n <? 0) with true by lia.
  cbn [str_contains]. change (eqc "-" "-") with true. cbv iota. simpl orb.
  cbn [str_split]. change (eqc "-" "-") with true. cbv iota.
  rewrite str_split_no_sep; [reflexivity|].
  apply (str_contains_forall "-" is_digit); [reflexivity|].
  apply digits_forall; [exact decimal_digit_is_digit | lia].
Qed.

Lemma loop_negative (l : list Z) :
  Exists (fun n => n < 0) l →
  ∀ elems, CommaDashSetFile.loop elems (str_of_int <$> l) = Raise ValueError.
Proof.
  induction l as [|n l IH]; intros Hex elems; [by inversion Hex|].
  rewrite fmap_cons. cbn [CommaDashSetFile.loop].
  destruct (Z.lt_ge_cases n 0) as [Hn|Hn].
  - rewrite group_elems_negative by exact Hn. reflexivity.
  - rewrite group_elems_str_of_int, bind_Ok by exact Hn. apply IH.
    inversion Hex; subst; [lia | assumption].
Qed.

Lemma str_of_int_no_comma (n : Z) : str_contains "," (str_of_int n) = false.
Proof.
  unfold str_of_int. destruct (n <? 0); [simpl|];
    (apply (str_contains_forall "," is_digit); [reflexivity|]);
    (apply digits_forall; [exact decimal_digit_is_digit | lia]).
Qed.

(** X15. A set with a negative element does not survive the round trip
    through [CommaDashSetFile]: its encoding is written, and decoding
    that text raises [ValueError], the minus sign being read as the dash
    of a range. *)
Theorem comma_dash_set_negative (set_iter : gset Z → list Z) (s : gset Z) :
  (∀ s, set_iter s ≡ₚ elements s) →
  (∃ x, x ∈ s ∧ x < 0) →
  CommaDashSetFile.sanitize_set set_iter (VSet s)
  = Ok (VStr (str_join "," (str_of_int <$> set_iter s)))
  ∧ decode_encode (CommaDashSetFile.class set_iter) (VSet s)
    = Raise ValueError.
Proof.
  intros Hiter (x & Hx & Hneg).
  assert (x ∈ set_iter s) as Hin by (rewrite Hiter; by apply elem_of_elements).
  assert ((Z.of_nat (size s) =? 0) = false) as Hsize.
  { apply Z.eqb_neq. intros E.
    assert (s = ∅) as -> by (apply leibniz_equiv, size_empty_inv; lia).
    set_solver. }
  assert (CommaDashSetFile.sanitize_set set_iter (VSet s)
          = Ok (VStr (str_join "," (str_of_int <$> set_iter s)))) as Henc.
  { rewrite sanitize_set_set by exact Hiter. by rewrite Hsize. }
  split; [exact Henc|]. unfold decode_encode.
  cbn [cls_sanitize_set cls_sanitize_get CommaDashSetFile.class].
  rewrite Henc, bind_Ok. unfold CommaDashSetFile.sanitize_get.
  rewrite str_strip_id.
  - rewrite str_split_join.
    + rewrite loop_negative; [reflexivity|].
      apply Exists_exists. exists x. split; assumption.
    + destruct (set_iter s); [by apply elem_of_nil in Hin | discriminate].
    + apply Forall_fmap, Forall_forall. intros n _. apply str_of_int_no_comma.
  - apply (str_forall_join (fun c => negb (isspace c)) ","); [reflexivity|].
    apply Forall_fmap, Forall_forall. intros n _.
    apply str_of_int_no_space.
Qed.

Lemma comma_dash_set_negative_witness :
  decode_encode (CommaDashSetFile.class elements) (VSet {[2; -1]})
  = Raise ValueError.
Proof.
  apply (comma_dash_set_negative elements {[2; -1]}).
  - intros s. reflexivity.
  - exists (-1). split; [set_solver | lia].
Defined.

(** ** Bit vectors of any elements *)

Lemma sum_bits_truth (l : list scalar) :
  ∀ pre acc,
    BitFieldFile.sum_bits (VList (pre ++ l))
      (seqZ (Z.of_nat (length pre)) (Z.of_nat (length l))) acc
    = Ok (acc + 2 ^ Z.of_nat (length pre) * bits_value (truth <$> l)).
Proof.
  induction l as [|x l IH]; intros pre acc.
  - simpl. f_equal. lia.
  - cbn [length]. rewrite seqZ_cons by lia.
    replace (Z.pred (Z.of_nat (S (length l)))) with (Z.of_nat (length l))
      by lia.
    cbn [BitFieldFile.sum_bits].
    rewrite (py_getitem_list _ (length pre) x)
      by (by rewrite list_lookup_middle).
    rewrite bind_Ok.
    replace (pre ++ x :: l) with ((pre ++ [x]) ++ l)
      by (by rewrite <- app_assoc).
    replace (Z.succ (Z.of_nat (length pre)))
      with (Z.of_nat (length (pre ++ [x])))
      by (rewrite length_app; simpl; lia).
    rewrite IH. f_equal. rewrite length_app. cbn [length].
    rewrite Z.shiftl_mul_pow2 by lia.
    replace (Z.of_nat (length pre + 1)) with (Z.succ (Z.of_nat (length pre)))
      by lia.
    rewrite Z.pow_succ_r by lia. rewrite fmap_cons, bits_value_cons.
    fold (truth x). destruct (truth x); simpl; lia.
Qed.

Lemma sanitize_set_list (l : list scalar) :
  BitFieldFile.sanitize_set (VList l) = Ok (VInt (bits_value (truth <$> l))).
Proof.
  unfold BitFieldFile.sanitize_set. simpl try_encode. cbv zeta.
  cbn [is_bytes is_Iterable orb negb py_len]. rewrite bind_Ok.
  unfold py_range. rewrite Z.sub_0_r.
  pose proof (sum_bits_truth l [] 0) as H.
  change (Z.of_nat (length [])) with 0 in H. change ([] ++ l) with l in H.
  rewrite H, bind_Ok. do 3 f_equal. change (2 ^ 0) with 1. lia.
Qed.

Lemma seqZ_0_pos (n : nat) :
  (0 < n)%nat → ∃ idx, seqZ 0 (Z.of_nat n) = 0 :: idx.
Proof. intros Hn. rewrite seqZ_cons by lia. by eexists. Qed.

(** X16. [BitFieldFile] encodes a sequence of any elements as the integer
    whose bit [i] is the truth value of element [i]: a non-negative integer
    below two to the length of the sequence.  A number is encoded as
    itself, [None] raises [TypeError]; an empty set or mapping gives 0, a
    set with elements raises [TypeError] and a mapping with keys
    [KeyError], since neither can be indexed by position. *)
Theorem bit_field_encode :
  (∀ l, ∃ n,
     BitFieldFile.sanitize_set (VList l) = Ok (VInt n)
     ∧ 0 ≤ n < 2 ^ Z.of_nat (length l)
     ∧ ∀ i x, l !! i = Some x → Z.testbit n (Z.of_nat i) = truth x)
  ∧ (∀ n, BitFieldFile.sanitize_set (VInt n) = Ok (VInt n))
  ∧ BitFieldFile.sanitize_set VNone = Raise TypeError
  ∧ (∀ s : gset Z,
       BitFieldFile.sanitize_set (VSet s)
       = if bool_decide (s = ∅) then Ok (VInt 0) else Raise TypeError)
  ∧ (∀ d,
       BitFieldFile.sanitize_set (VDict d)
       = match d with [] => Ok (VInt 0) | _ :: _ => Raise KeyError end).
Proof.
  split; [|split; [reflexivity|split; [reflexivity|split]]].
  - intros l. exists (bits_value (truth <$> l)).
    split; [apply sanitize_set_list|]. split.
    + pose proof (bits_value_bounds (truth <$> l)) as H.
      by rewrite length_fmap in H.
    + intros i x Hx. apply testbit_bits_value.
      by rewrite list_lookup_fmap, Hx.
  - intros s. unfold BitFieldFile.sanitize_set. simpl try_encode. cbv zeta.
    cbn [is_bytes is_Iterable orb negb py_len]. rewrite bind_Ok.
    unfold py_range. rewrite Z.sub_0_r. case_bool_decide as Hs.
    + subst s. reflexivity.
    + destruct (seqZ_0_pos (size s)) as [idx ->]; [|reflexivity].
      destruct (size s) eqn:E; [|lia].
      apply size_empty_inv, leibniz_equiv in E. done.
  - intros d. unfold BitFieldFile.sanitize_set. simpl try_encode. cbv zeta.
    cbn [is_bytes is_Iterable orb negb py_len]. rewrite bind_Ok.
    unfold py_range. rewrite Z.sub_0_r. destruct d as [|kv d]; [reflexivity|].
    destruct (seqZ_0_pos (length (kv :: d))) as [idx ->];
      [simpl; lia | reflexivity].
Qed.

Lemma bit_field_encode_witness :
  Z.testbit 5 (Z.of_nat 2) = truth (SStr "on")
  ∧ BitFieldFile.sanitize_set (VList [SInt 7; SNone; SStr "on"]) = Ok (VInt 5).
Proof.
  destruct (proj1 bit_field_encode [SInt 7; SNone; SStr "on"])
    as (n & Hn & _ & Hbit).
  assert (n = 5) as -> by (vm_compute in Hn; congruence).
  split; [exact (Hbit 2%nat (SStr "on") eq_refl) | exact Hn].
Defined.

(** *** Decoding, then encoding *)

Lemma hex_len_min (n : Z) : 3 ≤ str_len (hex n).
Proof.
  unfold hex, digits. destruct (n <? 0).
  - destruct (digits_fuel_cons 16 (Z.to_nat (Z.log2 (- n))) (- n) EmptyString)
      as (c & r & ->).
    change ("-0x" +:+ String c r)
      with (String "-" (String "0" (String "x" (String c r)))).
    rewrite !str_len_cons. pose proof (str_len_nonneg r). lia.
  - destruct (digits_fuel_cons 16 (Z.to_nat (Z.log2 n)) n EmptyString)
      as (c & r & ->).
    change ("0x" +:+ String c r) with (String "0" (String "x" (String c r))).
    rewrite !str_len_cons. pose proof (str_len_nonneg r). lia.
Qed.

Lemma sanitize_get_shape (value : pyval) (n : Z) :
  py_int value = Ok n →
  ∃ bits,
    BitFieldFile.sanitize_get value = Ok (VList (SBool <$> bits))
    ∧ Z.of_nat (length bits) = round_up_8 ((str_len (hex n) - 2) * 4).
Proof.
  intros Hint. unfold BitFieldFile.sanitize_get. rewrite Hint, bind_Ok.
  cbv zeta. rewrite round_up_8_code.
  exists ((fun i => py_bool (VInt (Z.land (Z.shiftr n i) 1)))
            <$> py_range 0 (round_up_8 ((str_len (hex n) - 2) * 4))).
  rewrite <- list_fmap_compose. split; [reflexivity|].
  rewrite length_fmap. unfold py_range. rewrite length_seqZ, Z.sub_0_r.
  pose proof (round_up_8_spec ((str_len (hex n) - 2) * 4)) as [[? _] _].
  pose proof (hex_len_min n). lia.
Qed.

(** X17. Whatever integer the text holds, negative or not, [BitFieldFile]
    decodes it to a whole number of bytes, at least one: the length of the
    sequence is a multiple of 8 and at least 8. *)
Theorem bit_field_decode_whole_bytes (value : pyval) (n : Z) :
  py_int value = Ok n →
  ∃ bits,
    BitFieldFile.sanitize_get value = Ok (VList (SBool <$> bits))
    ∧ 8 ≤ Z.of_nat (length bits)
    ∧ Z.of_nat (length bits) mod 8 = 0.
Proof.
  intros Hint. destruct (sanitize_get_shape value n Hint) as (bits & E & Hlen).
  exists bits. split; [exact E|]. rewrite Hlen.
  pose proof (round_up_8_spec ((str_len (hex n) - 2) * 4)) as [[Hle Hlt] Hmod].
  split; [|exact Hmod]. pose proof (hex_len_min n).
  unfold round_up_8 in *. Z.to_euclidean_division_equations. lia.
Qed.

Lemma bit_field_decode_whole_bytes_witness :
  ∃ bits,
    BitFieldFile.sanitize_get (VStr "-300") = Ok (VList (SBool <$> bits))
    ∧ 8 ≤ Z.of_nat (length bits)
    ∧ Z.of_nat (length bits) mod 8 = 0.
Proof. exact (bit_field_decode_whole_bytes (VStr "-300") (-300) eq_refl). Defined.

(** X18. Encoding what [BitFieldFile] decoded gives the integer of the
    text back when it is not negative; from a negative integer it gives a
    non-negative one, so a negative integer is never restored. *)
Theorem bit_field_encode_decode (text : string) (n : Z) :
  py_int (VStr text) = Ok n →
  ∃ bits m,
    BitFieldFile.sanitize_get (VStr text) = Ok (VList bits)
    ∧ BitFieldFile.sanitize_set (VList bits) = Ok (VInt m)
    ∧ 0 ≤ m
    ∧ (0 ≤ n → m = n).
Proof.
  intros Hint. destruct (Z.le_gt_cases 0 n) as [Hn|Hn].
  - exists (SBool <$> (Z.testbit n
                         <$> seqZ 0 (round_up_8 (4 * hex_digit_count n)))), n.
    split; [exact (sanitize_get_bits text n Hint Hn)|].
    split; [|split; [exact Hn | reflexivity]].
    rewrite sanitize_set_bits. do 3 f_equal.
    pose proof (round_up_8_spec (4 * hex_digit_count n)) as [[HL _] _].
    pose proof (hex_digit_count_pos n).
    rewrite <- (Z2Nat.id (round_up_8 _)) by lia.
    rewrite bits_value_testbit, Z2Nat.id by lia.
    apply Z.mod_small. split; [exact Hn | apply below_rounded_length, Hn].
  - destruct (sanitize_get_shape (VStr text) n Hint) as (v & E & _).
    exists (SBool <$> v), (bits_value v).
    split; [exact E|]. split; [apply sanitize_set_bits|].
    split; [apply bits_value_bounds | lia].
Qed.

Lemma bit_field_encode_decode_witness :
  ∃ bits m,
    BitFieldFile.sanitize_get (VStr "300") = Ok (VList bits)
    ∧ BitFieldFile.sanitize_set (VList bits) = Ok (VInt m)
    ∧ 0 ≤ m
    ∧ (0 ≤ 300 → m = 300).
Proof. exact (bit_field_encode_decode "300" 300 eq_refl). Defined.

(** ** The polymorphic codec *)

Lemma str_split_lines (ls : list string) :
  Forall (fun l => str_contains "010" l = false) ls →
  filter (fun val => nonempty val = true) (str_split "010" (str_join LF ls))
  = filter (fun val => nonempty val = true) ls.
Proof.
  intros Hls. destruct ls as [|l ls]; [reflexivity|]. unfold LF.
  rewrite (str_split_join "010" (l :: ls)); [reflexivity | discriminate|].
  exact Hls.
Qed.

(** X19. [TypedFile] builds one instance per non-empty line of the text,
    in order, and drops the empty lines.  Without [many] it returns the
    first instance, or [None] when there is none, but only after every
    line has been parsed: it raises whenever the read with [many] raises,
    and with the same exception. *)
Theorem typed_file_decode (contenttype : pyclass) (many one : pyval) :
  py_bool many = true → py_bool one = false →
  (∀ ls,
     Forall (fun l => str_contains "010" l = false) ls →
     TypedFile.sanitize_get contenttype many (VStr (str_join LF ls))
     = (res ← rmap_list (fun val => from_string contenttype (VStr val))
                (filter (fun val => nonempty val = true) ls);
        Ok (VList res)))
  ∧ (∀ value res,
       TypedFile.sanitize_get contenttype many value = Ok (VList res) →
       TypedFile.sanitize_get contenttype one value
       = Ok (match res with x :: _ => VScalar x | [] => VNone end))
  ∧ (∀ value e,
       TypedFile.sanitize_get contenttype many value = Raise e
       ↔ TypedFile.sanitize_get contenttype one value = Raise e).
Proof.
  intros Hmany Hone. unfold TypedFile.sanitize_get. rewrite Hmany, Hone.
  cbn [negb]. split; [|split].
  - intros ls Hls. cbn [split_text]. rewrite bind_Ok, str_split_lines by done.
    reflexivity.
  - intros value res.
    destruct (split_text "010" value) as [lines|]; [|discriminate].
    rewrite !bind_Ok. destruct (rmap_list _ _) as [r|]; [|discriminate].
    rewrite !bind_Ok. intros [= ->]. by destruct res.
  - intros value e.
    destruct (split_text "010" value) as [lines|]; [|reflexivity].
    rewrite !bind_Ok. destruct (rmap_list _ _) as [[|x r]|]; simpl;
      split; (discriminate || done).
Qed.

Lemma typed_file_decode_witness :
  TypedFile.sanitize_get
    {| cls_name := "cgroupspy.contenttypes.DeviceAccess";
       cls_bases := [BaseContentType];
       from_string := fun _ => Raise ValueError |}
    (VBool false) (VStr "a *:* rwm")
  = Raise ValueError.
Proof.
  apply (proj2 (proj2 (typed_file_decode
                         {| cls_name := "cgroupspy.contenttypes.DeviceAccess";
                            cls_bases := [BaseContentType];
                            from_string := fun _ => Raise ValueError |}
                         (VBool true) (VBool false) eq_refl eq_refl))).
  reflexivity.
Defined.

(** ** The positional codec *)

Lemma split_on_char (c : ascii) (s : string) :
  split_on (String c EmptyString) O s = str_split c s.
Proof.
  induction s as [|a s IH]; [reflexivity|].
  cbn [split_on str_split str_prefix String.length].
  change (1 - 1)%nat with O. rewrite IH.
  unfold eqc. rewrite (Ascii.eqb_sym c a), andb_true_r.
  destruct (Ascii.eqb a c); reflexivity.
Qed.

Lemma pair_text_strip (k : string) (n : Z) :
  is_token k = true →
  str_strip isspace (k +:+ String " " (str_of_int n))
  = k +:+ String " " (str_of_int n).
Proof.
  intros Hk. unfold str_strip. rewrite str_lstrip_token by exact Hk.
  replace (k +:+ String " " (str_of_int n))
    with ((k +:+ " ") +:+ str_of_int n) by (by rewrite str_app_assoc).
  rewrite str_rstrip_app; rewrite str_rstrip_id by apply str_of_int_no_space;
    [reflexivity | apply str_of_int_nonempty].
Qed.

Lemma pair_text_split (k : string) (n : Z) (w1 w2 : string) :
  is_token k = true → is_blank w1 = true → is_blank w2 = true →
  str_split_sep " "
    (str_strip isspace (w1 +:+ (k +:+ String " " (str_of_int n)) +:+ w2))
  = Ok [k; str_of_int n].
Proof.
  intros Hk H1 H2. rewrite str_strip_surrounded, pair_text_strip by assumption.
  unfold str_split_sep. cbn [String.eqb Ascii.eqb]. simpl String.eqb.
  rewrite split_on_char, str_split_app, str_split_no_sep; [reflexivity| |].
  - apply (str_contains_forall " " (fun c => negb (isspace c)));
      [reflexivity | apply str_of_int_no_space].
  - apply is_token_spec in Hk as [_ Hk].
    apply (str_contains_forall " " (fun c => negb (isspace c)));
      [reflexivity | exact Hk].
Qed.

(** X20. From a line of a name, one space and an integer, with any white
    space before and after, [SplitValueFile] with the default separator
    picks the name at position 0 and the integer at position 1 (or -1),
    as an [int] when built with [restype=int] and as text otherwise; any
    position outside -2 .. 1 raises [IndexError]. *)
Theorem split_value_file_pair (k : string) (n : Z) (w1 w2 : string) :
  is_token k = true → is_blank w1 = true → is_blank w2 = true →
  let text := VStr (w1 +:+ (k +:+ String " " (str_of_int n)) +:+ w2) in
  SplitValueFile.sanitize_get 0 None " " text = Ok (VStr k)
  ∧ SplitValueFile.sanitize_get 1 (Some type_int) " " text = Ok (VInt n)
  ∧ SplitValueFile.sanitize_get (-1) (Some type_int) " " text = Ok (VInt n)
  ∧ SplitValueFile.sanitize_get 1 None " " text = Ok (VStr (str_of_int n))
  ∧ SplitValueFile.sanitize_get 1 (Some type_str) " " text
    = Ok (VStr (str_of_int n))
  ∧ ∀ position restype,
      position < -2 ∨ 2 ≤ position →
      SplitValueFile.sanitize_get position restype " " text = Raise IndexError.
Proof.
  intros Hk H1 H2 text. subst text.
  assert (∀ position restype,
            SplitValueFile.sanitize_get position restype " "
              (VStr (w1 +:+ (k +:+ String " " (str_of_int n)) +:+ w2))
            = (res ← py_getitem (VList [SStr k; SStr (str_of_int n)]) position;
               match restype with
               | Some t =>
                   if negb (is_builtin res t) then builtin_call t res
                   else Ok (VScalar res)
               | None => Ok (VScalar res)
               end)) as E.
  { intros position restype. unfold SplitValueFile.sanitize_get.
    rewrite pair_text_split by assumption. reflexivity. }
  rewrite !E. repeat split; try reflexivity.
  - simpl. rewrite parse_int_str_of_int. reflexivity.
  - simpl. rewrite parse_int_str_of_int. reflexivity.
  - intros position restype Hp. rewrite E. unfold py_getitem. cbn [length].
    change (Z.of_nat 2) with 2.
    destruct (Z.ltb_spec position 0).
    + destruct (Z.leb_spec 0 (position + 2)); [lia | reflexivity].
    + destruct (Z.leb_spec 0 position); [|lia].
      destruct (Z.ltb_spec position 2); [lia | reflexivity].
Qed.

Lemma split_value_file_pair_witness :
  SplitValueFile.sanitize_get 1 (Some type_int) " "
    (VStr (EmptyString +:+ ("Total" +:+ String " " (str_of_int 10)) +:+ LF))
  = Ok (VInt 10)
  ∧ SplitValueFile.sanitize_get 2 None " "
      (VStr (EmptyString +:+ ("Total" +:+ String " " (str_of_int 10)) +:+ LF))
    = Raise IndexError.
Proof.
  pose proof (split_value_file_pair "Total" 10 EmptyString LF
                eq_refl eq_refl eq_refl) as (_ & H & _ & _ & _ & Hidx).
  split; [exact H | apply Hidx; lia].
Defined.

(** X21. A [SplitValueFile] is always constructed, and always read-only:
    every write through it raises without calling the owner, while a read
    is never refused.  Built with the empty separator it raises
    [ValueError] on every text. *)
Theorem split_value_file_readonly (filename : scalar) (position : Z)
    (restype : option builtin_type) (splitchar : string) :
  ∃ self,
    SplitValueFile.__init__ filename position restype splitchar = Ok self
    ∧ (∀ value, BaseFileInterface.__set__ self value
                = Throw (RuntimeError "This interface is readonly"))
    ∧ BaseFileInterface.__get__ self
      = GetProperty (self_filename self)
          (fun value =>
             lift (SplitValueFile.sanitize_get position restype splitchar value))
    ∧ (splitchar = EmptyString →
       ∀ text, self_sanitize_get self (VStr text) = Raise ValueError).
Proof.
  eexists. split; [reflexivity|]. split; [reflexivity|].
  split; [reflexivity|]. intros -> text. reflexivity.
Qed.

Lemma split_value_file_readonly_witness :
  ∃ self,
    SplitValueFile.__init__ (SStr "memory.stat") 1 (Some type_int) EmptyString
    = Ok self
    ∧ ∀ text, self_sanitize_get self (VStr text) = Raise ValueError.
Proof.
  destruct (split_value_file_readonly (SStr "memory.stat") 1 (Some type_int)
              EmptyString) as (self & E & _ & _ & H).
  exists self. split; [exact E | exact (H eq_refl)].
Defined.

(** ** Construction of a typed file *)

(** X22. [TypedFile.__init__] looks at the content type first: an argument
    that is no class at all raises [TypeError], and a class outside the
    family raises the content-type error even when the access modes
    contradict each other too.  For a class of the family the modes are
    then checked as for any accessor, and the accessor built lets an
    instance of the content type through unchanged on write. *)
Theorem typed_file_init (filename : scalar) (readonly writeonly many : pyval) :
  (∀ v, TypedFile.__init__ filename (AValue v) readonly writeonly many
        = Raise TypeError)
  ∧ (∀ c, BaseContentType ∉ cls_name c :: cls_bases c →
          TypedFile.__init__ filename (AClass c) (VBool true) (VBool true) many
          = Raise (RuntimeError
                     ("Contenttype should be a class inheriting from BaseContentType, not "
                      +:+ class_repr c)))
  ∧ (∀ c, BaseContentType ∈ cls_name c :: cls_bases c →
          TypedFile.__init__ filename (AClass c) readonly writeonly many
          = BaseFileInterface.__init__ (TypedFile.class c many)
              filename readonly writeonly)
  ∧ (∀ c self mro shown,
       TypedFile.__init__ filename (AClass c) readonly writeonly many = Ok self →
       cls_name c ∈ mro →
       self_sanitize_set self (VScalar (SObj mro shown))
       = Ok (VScalar (SObj mro shown))).
Proof.
  assert (∀ c, BaseContentType ∈ cls_name c :: cls_bases c →
               TypedFile.__init__ filename (AClass c) readonly writeonly many
               = BaseFileInterface.__init__ (TypedFile.class c many)
                   filename readonly writeonly) as Hin.
  { intros c Hc. unfold TypedFile.__init__. simpl.
    rewrite bool_decide_eq_true_2 by exact Hc. reflexivity. }
  split; [reflexivity|]. split; [|split; [exact Hin|]].
  - intros c Hc. unfold TypedFile.__init__. simpl.
    rewrite bool_decide_eq_false_2 by exact Hc. reflexivity.
  - intros c self mro shown Hinit Hmro.
    destruct (decide (BaseContentType ∈ cls_name c :: cls_bases c)) as [Hc|Hc].
    + rewrite (Hin c Hc) in Hinit. unfold BaseFileInterface.__init__ in Hinit.
      destruct (py_bool readonly && py_bool writeonly); [discriminate|].
      injection Hinit as <-. cbn [self_sanitize_set cls_sanitize_set
        TypedFile.class]. unfold TypedFile.sanitize_set, py_isinstance.
      rewrite bool_decide_eq_true_2 by exact Hmro. reflexivity.
    + unfold TypedFile.__init__ in Hinit. simpl in Hinit.
      rewrite bool_decide_eq_false_2 in Hinit by exact Hc. discriminate Hinit.
Qed.

Lemma typed_file_init_witness :
  TypedFile.__init__ (SStr "devices.allow") (AClass not_a_content_type)
    (VBool true) (VBool true) VNone
  = Raise (RuntimeError
             "Contenttype should be a class inheriting from BaseContentType, not <class 'int'>")
  ∧ TypedFile.__init__ (SStr "devices.allow")
      (AClass {| cls_name := "cgroupspy.contenttypes.DeviceAccess";
                 cls_bases := [BaseContentType];
                 from_string := fun _ => Raise ValueError |})
      (VBool true) (VBool true) VNone
    = Raise (RuntimeError
               "This interface cannot be both readonly and writeonly").
Proof.
  split.
  - apply (proj1 (proj2 (typed_file_init (SStr "devices.allow")
                           (VBool true) (VBool true) VNone))).
    apply (bool_decide_unpack _). vm_compute. exact I.
  - rewrite (proj1 (proj2 (proj2 (typed_file_init (SStr "devices.allow")
                                    (VBool true) (VBool true) VNone)))).
    + reflexivity.
    + apply (bool_decide_unpack _). vm_compute. exact I.
Defined.

(** ** Encoding collections other than sets *)

Lemma strs_of_ints (set_iter : gset Z → list Z) (l : list Z) :
  CommaDashSetFile.strs_of set_iter (VList (SInt <$> l)) = str_of_int <$> l.
Proof.
  unfold CommaDashSetFile.strs_of. rewrite <- list_fmap_compose.
  apply list_fmap_ext. reflexivity.
Qed.

(** X23. [CommaDashSetFile] encodes any sized value: an empty text,
    sequence, set or mapping is written as one space, a value without a
    length raises [TypeError].  A non-empty sequence of non-negative
    integers is written as their decimal texts joined by commas, and it is
    read back as the set of its elements, duplicates collapsed. *)
Theorem comma_dash_set_encode (set_iter : gset Z → list Z) :
  (∀ value, py_len value = Ok 0 →
            CommaDashSetFile.sanitize_set set_iter value = Ok (VStr " "))
  ∧ (∀ x : scalar, (∀ s, x ≠ SStr s) → (∀ b, x ≠ SBytes b) →
       CommaDashSetFile.sanitize_set set_iter (VScalar x) = Raise TypeError)
  ∧ (∀ l, l ≠ [] →
       CommaDashSetFile.sanitize_set set_iter (VList (SInt <$> l))
       = Ok (VStr (str_join "," (str_of_int <$> l))))
  ∧ (∀ l, Forall (fun n => 0 ≤ n) l →
       decode_encode (CommaDashSetFile.class set_iter) (VList (SInt <$> l))
       = Ok (VSet (list_to_set l))).
Proof.
  assert (∀ l, l ≠ [] →
               CommaDashSetFile.sanitize_set set_iter (VList (SInt <$> l))
               = Ok (VStr (str_join "," (str_of_int <$> l)))) as Henc.
  { intros l Hne. unfold CommaDashSetFile.sanitize_set.
    cbn [py_len]. rewrite bind_Ok, length_fmap.
    destruct l as [|n l]; [done|].
    replace (Z.of_nat (length (n :: l)) =? 0) with false by (simpl; lia).
    cbn [try_encode]. rewrite strs_of_ints. reflexivity. }
  split; [|split; [|split; [exact Henc|]]].
  - intros value Hlen. unfold CommaDashSetFile.sanitize_set.
    rewrite Hlen. reflexivity.
  - intros x Hs Hb. destruct x; try reflexivity; [by destruct (Hs s) | by destruct (Hb s)].
  - intros l Hl. unfold decode_encode.
    cbn [cls_sanitize_set cls_sanitize_get CommaDashSetFile.class].
    destruct l as [|n l]; [reflexivity|].
    rewrite Henc, bind_Ok by discriminate.
    apply sanitize_get_join; [discriminate | exact Hl].
Qed.

Lemma comma_dash_set_encode_witness :
  decode_encode (CommaDashSetFile.class elements) (VList (SInt <$> [3; 0; 3]))
  = Ok (VSet (list_to_set [3; 0; 3]))
  ∧ CommaDashSetFile.sanitize_set elements (VDict []) = Ok (VStr " ").
Proof.
  split.
  - apply (proj2 (proj2 (proj2 (comma_dash_set_encode elements)))).
    repeat apply Forall_cons_2; try lia. apply Forall_nil_2.
  - exact (proj1 (comma_dash_set_encode elements) (VDict []) eq_refl).
Defined.
